(** * GoProj: the natural-language calculator of [webApi.go]

    A shallow embedding of the expression validator and evaluator
    ([validateExpression], [evaluateExpression]) and of the two request
    handlers that record failures in the process-wide [evaluationErrors]
    map, followed by the properties of the specification.

    Conventions of the embedding.
    - A Go [string] is a byte sequence: Rocq's [string] (a list of 8-bit
      [ascii]).
    - [int] is the 64-bit signed integer of the usual targets; its values
      are carried in [Z] and the wrap-around is written out ([wrapInt]).
    - Indices and lengths are [nat]: they never exceed the length of a
      slice, so the [int] arithmetic on them does not wrap.
    - [float64] is IEEE 754 binary64, carried as [spec_float] with
      precision 53 and maximal exponent 1024; all operations round to
      nearest, ties to even.
    - A run-time panic (index or slice bound out of range) is the outcome
      [Panic]; loops run on a step budget and [OutOfFuel] is the outcome
      of an exhausted budget.
    - The library functions [strings.ToLower], [strings.Fields],
      [strings.HasSuffix] and [strconv.Atoi] are modelled after the Go
      standard library; [ToLower] and [Fields] are exact on ASCII input
      (bytes above 127 are left alone and never separate fields). *)

From Stdlib Require Import ZArith String Ascii List Bool Lia.
From Stdlib Require Import SpecFloat.
From stdpp Require Import base option list strings gmap.

Import ListNotations.
Local Open Scope string_scope.
Local Open Scope Z_scope.

(* ===================================================================== *)
(** ** Outcomes of a call *)
(* ===================================================================== *)

Inductive outcome (A : Type) : Type :=
| Ok (a : A)
| Panic
| OutOfFuel.

Arguments Ok {A} a.
Arguments Panic {A}.
Arguments OutOfFuel {A}.

(** Sequencing: the first panic (or exhausted budget) ends the call. *)
Definition bind {A B : Type} (m : outcome A) (k : A -> outcome B) : outcome B :=
  match m with
  | Ok a => k a
  | Panic => Panic
  | OutOfFuel => OutOfFuel
  end.

Notation "'let*' x ':=' m 'in' k" := (bind m (fun x => k))
  (at level 10, x pattern, m at level 200, k at level 200).

(** What one iteration of a [for] body does: leave the function with a
    value, or fall through to the post statement with the loop state. *)
Inductive flow (R S : Type) : Type :=
| Return (r : R)
| Continue (s : S).

Arguments Return {R S} r.
Arguments Continue {R S} s.

(** [fields[i]]: panics when [i] is out of range. *)
Definition idx (fields : list string) (i : nat) : outcome string :=
  match fields !! i with
  | Some x => Ok x
  | None => Panic
  end.

(* ===================================================================== *)
(** ** Machine integers and floats *)
(* ===================================================================== *)

Definition maxInt : Z := 2 ^ 63 - 1.
Definition minInt : Z := - 2 ^ 63.
Definition maxUint64 : Z := 2 ^ 64 - 1.

(** Two's-complement wrap-around of [int] arithmetic. *)
Definition wrapInt (z : Z) : Z := (z + 2 ^ 63) mod 2 ^ 64 - 2 ^ 63.

Definition float64 : Type := spec_float.

Definition prec : Z := 53.
Definition emax : Z := 1024.

Definition f64_add : float64 -> float64 -> float64 := SFadd prec emax.
Definition f64_sub : float64 -> float64 -> float64 := SFsub prec emax.
Definition f64_mul : float64 -> float64 -> float64 := SFmul prec emax.
Definition f64_div : float64 -> float64 -> float64 := SFdiv prec emax.

(** The conversion [float64(n)] of an [int]. *)
Definition float64_of_int (n : Z) : float64 := binary_normalize prec emax n 0 false.

(** The constant [0] of type [float64]. *)
Definition f64_zero : float64 := S754_zero false.

(* ===================================================================== *)
(** ** Library functions *)
(* ===================================================================== *)

Definition byte (c : ascii) : Z := Z.of_N (N_of_ascii c).

Definition isDigit (c : ascii) : bool := (48 <=? byte c) && (byte c <=? 57).

Definition isUpper (c : ascii) : bool := (65 <=? byte c) && (byte c <=? 90).

(** The ASCII white space of [strings.Fields]: tab, line feed, vertical
    tab, form feed, carriage return and space. *)
Definition isSpace (c : ascii) : bool :=
  ((9 <=? byte c) && (byte c <=? 13)) || (byte c =? 32).

Definition lowerByte (c : ascii) : ascii :=
  if isUpper c then ascii_of_N (Z.to_N (byte c + 32)) else c.

Fixpoint ToLower (s : string) : string :=
  match s with
  | EmptyString => EmptyString
  | String c s' => String (lowerByte c) (ToLower s')
  end.

(** [strings.Fields]: the maximal runs of non-space bytes, in order.
    [cur] is the run being read, [None] between two runs. *)
Fixpoint fieldsFrom (cur : option string) (s : string) : list string :=
  match s with
  | EmptyString =>
      match cur with
      | Some w => [w]
      | None => []
      end
  | String c s' =>
      if isSpace c then
        match cur with
        | Some w => w :: fieldsFrom None s'
        | None => fieldsFrom None s'
        end
      else
        match cur with
        | Some w => fieldsFrom (Some (w ++ String c EmptyString)) s'
        | None => fieldsFrom (Some (String c EmptyString)) s'
        end
  end.

Definition Fields (s : string) : list string := fieldsFrom None s.

Definition len (s : string) : nat := String.length s.

(** [strings.HasSuffix(s, suffix)]. *)
Definition HasSuffix (s suffix : string) : bool :=
  (len suffix <=? len s)%nat &&
  String.eqb (substring (len s - len suffix) (len suffix) s) suffix.

(** The slice [s[:hi]]: panics when [hi] exceeds the length.  [hi] is an
    [int], so a negative bound panics as well. *)
Definition sliceTo (s : string) (hi : Z) : outcome string :=
  if (0 <=? hi) && (hi <=? Z.of_nat (len s))
  then Ok (substring 0 (Z.to_nat hi) s)
  else Panic.

(** *** [strconv.Atoi] *)

Inductive error : Type := ErrSyntax | ErrRange.

(** The digit loop of [strconv.ParseUint(s, 10, 64)], with the running
    value [n] a [uint64]. *)
Fixpoint parseUintLoop (s : string) (n : Z) : Z * option error :=
  match s with
  | EmptyString => (n, None)
  | String c s' =>
      if isDigit c then
        let d := byte c - 48 in
        if maxUint64 / 10 + 1 <=? n then (maxUint64, Some ErrRange)
        else
          let n0 := n * 10 in
          let n1 := (n0 + d) mod 2 ^ 64 in
          if (n1 <? n0) || (maxUint64 <? n1) then (maxUint64, Some ErrRange)
          else parseUintLoop s' n1
      else (0, Some ErrSyntax)
  end.

Definition ParseUint (s : string) : Z * option error :=
  match s with
  | EmptyString => (0, Some ErrSyntax)
  | _ => parseUintLoop s 0
  end.

(** [strconv.ParseInt(s, 10, 0)]: an optional sign, then [ParseUint]. *)
Definition ParseInt (s : string) : Z * option error :=
  match s with
  | EmptyString => (0, Some ErrSyntax)
  | String c s' =>
      let neg := Ascii.eqb c "-"%char in
      let digits := if Ascii.eqb c "+"%char || neg then s' else s in
      match ParseUint digits with
      | (_, Some ErrSyntax) => (0, Some ErrSyntax)
      | (un, _) =>
          let cutoff := 2 ^ 63 in
          if negb neg && (cutoff <=? un) then (cutoff - 1, Some ErrRange)
          else if neg && (cutoff <? un) then (- cutoff, Some ErrRange)
          else (if neg then - un else un, None)
      end
  end.

(** [strconv.Atoi]: the fast path for short inputs returns what
    [ParseInt] returns, so the model is the slow path. *)
Definition Atoi (s : string) : Z * option error := ParseInt s.

(* ===================================================================== *)
(** ** The program *)
(* ===================================================================== *)

Definition EvaluateEndpoint : string := "/evaluate".
Definition ValidateEndpoint : string := "/validate".

Definition KeywordPlus : string := "plus".
Definition KeywordMinus : string := "minus".
Definition KeywordMultiplied : string := "multiplied".
Definition KeywordDivided : string := "divided".
Definition KeywordBy : string := "by".
Definition KeywordWhat : string := "what".
Definition KeywordIs : string := "is".

Definition InvalidJSONError : string := "Invalid JSON data".
Definition InvalidExpressionError : string := "Invalid expression".
Definition UnsupportedOperationError : string := "Unsupported operation".
Definition NonMathQuestionError : string := "Non-math question".

Definition isValidKeyword (kw : string) : bool :=
  let validKeywords := [KeywordPlus; KeywordMinus; KeywordMultiplied; KeywordDivided] in
  existsb (fun word => String.eqb word kw) validKeywords.

(** [num, _ := strconv.Atoi(s); return float64(num)] *)
Definition parseNum (s : string) : float64 :=
  let '(num, _) := Atoi s in float64_of_int num.

(** [err != nil] *)
Definition failed (err : option error) : bool :=
  match err with
  | Some _ => true
  | None => false
  end.

(** Go's short-circuit [a || b] and [a && b] where [b] reads the slice. *)
Definition orElse (a : bool) (b : outcome bool) : outcome bool :=
  if a then Ok true else b.

Definition andThen (a : bool) (b : outcome bool) : outcome bool :=
  if a then b else Ok false.

(** The last statements of the loop body of [validateExpression], from
    [if i+1 == len(fields)] on. *)
Definition validateOperand (fields : list string) (i : nat)
  : outcome (flow (bool * string) nat) :=
  if (i + 1 =? length fields)%nat then
    Ok (Return (false, InvalidExpressionError))
  else
    let* operand := idx fields (i + 1) in
    let '(_, err) := Atoi operand in
    if failed err then Ok (Return (false, InvalidExpressionError))
    else Ok (Continue i).

(** One iteration of the loop of [validateExpression] at index [i]; the
    state handed to the post statement [i += 2] is the value of [i]. *)
Definition validateBody (fields : list string) (i : nat)
  : outcome (flow (bool * string) nat) :=
  let* kw := idx fields i in
  if negb (isValidKeyword kw) then
    Ok (Return (false, UnsupportedOperationError))
  else if String.eqb kw KeywordMultiplied || String.eqb kw KeywordDivided then
    let* noBy := orElse (length fields <=? i + 1)%nat
                   (let* by_ := idx fields (i + 1) in
                    Ok (negb (String.eqb by_ KeywordBy))) in
    if noBy then Ok (Return (false, InvalidExpressionError))
    else
      let* divides := andThen (i + 2 <? length fields)%nat
                  (let* kw' := idx fields i in
                   andThen (String.eqb kw' KeywordDivided)
                     (let* by_ := idx fields (i + 1) in
                      Ok (String.eqb by_ KeywordBy))) in
      let* byZero := andThen divides
                 (let* operand := idx fields (i + 2) in
                  let '(num, err) := Atoi operand in
                  Ok (negb (failed err) && (num =? 0))) in
      if byZero then Ok (Return (false, InvalidExpressionError))
      else validateOperand fields (i + 1)
  else validateOperand fields i.

(** [for i := 3; i < len(fields); i += 2 { ... }] *)
Fixpoint validateLoop (fuel : nat) (fields : list string) (i : nat)
  : outcome (bool * string) :=
  if (i <? length fields)%nat then
    match fuel with
    | O => OutOfFuel
    | S fuel' =>
        let* step := validateBody fields i in
        match step with
        | Return r => Ok r
        | Continue i' => validateLoop fuel' fields (i' + 2)
        end
    end
  else Ok (true, "").

Definition validateExpression (expression : string) : outcome (bool * string) :=
  if (len expression =? 0)%nat || negb (HasSuffix expression "?") then
    Ok (false, InvalidExpressionError)
  else
    let* expression := sliceTo expression (Z.of_nat (len expression) - 1) in
    let expression := ToLower expression in
    let fields := Fields expression in
    let* notWhatIs := orElse (length fields <? 3)%nat
                  (let* f0 := idx fields 0 in
                   orElse (negb (String.eqb f0 KeywordWhat))
                     (let* f1 := idx fields 1 in
                      Ok (negb (String.eqb f1 KeywordIs)))) in
    if notWhatIs then Ok (false, NonMathQuestionError)
    else
      let* first := idx fields 2 in
      let '(_, err) := Atoi first in
      if failed err then Ok (false, InvalidExpressionError)
      else validateLoop (length fields) fields 3.

(** One iteration of the loop of [evaluateExpression]; the loop state is
    the index [i] and the accumulator [result]. *)
Definition evaluateBody (fields : list string) (st : nat * float64)
  : outcome (flow (float64 * string) (nat * float64)) :=
  let '(i, result) := st in
  if (length fields <=? i + 1)%nat then
    Ok (Return (f64_zero, InvalidExpressionError))
  else
    let* kw := idx fields i in
    if String.eqb kw KeywordPlus then
      let* nextNum := idx fields (i + 1) in
      Ok (Continue (i, f64_add result (parseNum nextNum)))
    else if String.eqb kw KeywordMinus then
      let* nextNum := idx fields (i + 1) in
      Ok (Continue (i, f64_sub result (parseNum nextNum)))
    else if String.eqb kw KeywordMultiplied then
      let* nextNum := idx fields (i + 2) in
      Ok (Continue ((i + 1)%nat, f64_mul result (parseNum nextNum)))
    else if String.eqb kw KeywordDivided then
      let* nextNum := idx fields (i + 2) in
      Ok (Continue ((i + 1)%nat, f64_div result (parseNum nextNum)))
    else Ok (Return (f64_zero, UnsupportedOperationError)).

Fixpoint evaluateLoop (fuel : nat) (fields : list string) (i : nat) (result : float64)
  : outcome (float64 * string) :=
  if (i <? length fields)%nat then
    match fuel with
    | O => OutOfFuel
    | S fuel' =>
        let* step := evaluateBody fields (i, result) in
        match step with
        | Return r => Ok r
        | Continue (i', result') => evaluateLoop fuel' fields (i' + 2) result'
        end
    end
  else Ok (result, "").

Definition evaluateExpression (expression : string) : outcome (float64 * string) :=
  let* (valid, reason) := validateExpression expression in
  if negb valid then Ok (f64_zero, reason)
  else
    let* expression := sliceTo expression (Z.of_nat (len expression) - 1) in
    let expression := ToLower expression in
    let fields := Fields expression in
    let* firstNum := idx fields 2 in
    let result := parseNum firstNum in
    evaluateLoop (length fields) fields 3 result.

(* ===================================================================== *)
(** ** The error store and the handlers *)
(* ===================================================================== *)

Record MessageType : Type := { Content : string; Endpoint : string }.

Record MessageInfo : Type := { Frequency : Z; ErrorType : string }.

#[global] Instance MessageType_eq_dec : EqDecision MessageType.
Proof. solve_decision. Defined.

#[global] Instance MessageType_countable : Countable MessageType :=
  inj_countable' (fun k => (Content k, Endpoint k))
                 (fun p => {| Content := p.1; Endpoint := p.2 |})
                 (fun k => match k with Build_MessageType _ _ => eq_refl end).

#[global] Instance MessageInfo_eq_dec : EqDecision MessageInfo.
Proof. solve_decision. Defined.

(** The package-level [evaluationErrors], threaded through the handlers. *)
Abbreviation ErrorStore := (gmap MessageType MessageInfo).

(** The decoded request body; a body without the field decodes to the
    zero value, whose [Expression] is empty. *)
Record ProblemExpression : Type := { Expression : string }.

(** What a handler writes: the status code and the encoded value.  The
    number of a successful evaluation is kept as the [float64] handed to
    [strconv.FormatFloat]. *)
Inductive body : Type :=
| EvaluationResponse (Result : string)
| EvaluationValue (Result : float64)
| ValidationResponse (Valid : bool) (Reason : string).

Record response : Type := { Code : Z; Body : body }.

Definition StatusOK : Z := 200.
Definition StatusBadRequest : Z := 400.

(** [reflect.DeepEqual(problemExpr, ProblemExpression{})] *)
Definition isZeroValue (problemExpr : ProblemExpression) : bool :=
  String.eqb (Expression problemExpr) "".

Definition evaluateHandler (problemExpr : ProblemExpression) (evaluationErrors : ErrorStore)
  : outcome (response * ErrorStore) :=
  if isZeroValue problemExpr then
    Ok ({| Code := StatusBadRequest; Body := EvaluationResponse InvalidJSONError |},
        evaluationErrors)
  else
    let* (result, message) := evaluateExpression (Expression problemExpr) in
    if negb (String.eqb message "") then
      let key := {| Content := Expression problemExpr; Endpoint := EvaluateEndpoint |} in
      let info := {| Frequency := 1; ErrorType := message |} in
      let info :=
        match evaluationErrors !! key with
        | Some stored =>
            {| Frequency := wrapInt (Frequency stored + 1); ErrorType := ErrorType stored |}
        | None => info
        end in
      Ok ({| Code := StatusOK; Body := EvaluationResponse message |},
          <[key := info]> evaluationErrors)
    else
      Ok ({| Code := StatusOK; Body := EvaluationValue result |}, evaluationErrors).

Definition validateHandler (problemExpr : ProblemExpression) (evaluationErrors : ErrorStore)
  : outcome (response * ErrorStore) :=
  if isZeroValue problemExpr then
    Ok ({| Code := StatusBadRequest; Body := ValidationResponse false InvalidJSONError |},
        evaluationErrors)
  else
    let* (valid, reason) := validateExpression (Expression problemExpr) in
    let resp := {| Code := StatusOK; Body := ValidationResponse valid reason |} in
    if negb (String.eqb reason "") then
      let key := {| Content := Expression problemExpr; Endpoint := ValidateEndpoint |} in
      let info := {| Frequency := 1; ErrorType := reason |} in
      let info :=
        match evaluationErrors !! key with
        | Some stored =>
            {| Frequency := wrapInt (Frequency stored + 1); ErrorType := ErrorType stored |}
        | None => info
        end in
      Ok (resp, <[key := info]> evaluationErrors)
    else Ok (resp, evaluationErrors).

(** The record of the errors query.  Its fields repeat names of the
    records above, so they live in a module of their own, and [Type] is
    written [Type_]. *)
Module ErrorInfo.
Record t : Type :=
  { Expression : string; Endpoint : string; Frequency : Z; Type_ : string }.
End ErrorInfo.

(** The body of the loop of [errorsHandler]: one entry of the map. *)
Definition errorInfo (entry : MessageType * MessageInfo) : ErrorInfo.t :=
  let '(message, info) := entry in
  {| ErrorInfo.Expression := Content message;
     ErrorInfo.Endpoint := Endpoint message;
     ErrorInfo.Frequency := Frequency info;
     ErrorInfo.Type_ := ErrorType info |}.

(** [errorsHandler] ranges over the map; Go leaves the order of the
    entries open, and the model lists them in the order of
    [map_to_list]. *)
Definition errorsHandler (evaluationErrors : ErrorStore) : list ErrorInfo.t :=
  errorInfo <$> map_to_list evaluationErrors.

(** The routes of [main]: the path selects the handler. *)
Inductive request : Type :=
| PostEvaluate (problemExpr : ProblemExpression)
| PostValidate (problemExpr : ProblemExpression).

Definition serve (req : request) (evaluationErrors : ErrorStore)
  : outcome (response * ErrorStore) :=
  match req with
  | PostEvaluate problemExpr => evaluateHandler problemExpr evaluationErrors
  | PostValidate problemExpr => validateHandler problemExpr evaluationErrors
  end.

(** Requests served one after the other on the same store. *)
Fixpoint serveAll (reqs : list request) (evaluationErrors : ErrorStore)
  : outcome ErrorStore :=
  match reqs with
  | [] => Ok evaluationErrors
  | req :: reqs' =>
      let* (_, evaluationErrors') := serve req evaluationErrors in
      serveAll reqs' evaluationErrors'
  end.

(* ===================================================================== *)
(** ** The grammar of accepted token sequences *)
(* ===================================================================== *)

(** The token sequence both functions work on: the fields of the
    lower-cased expression without its last byte. *)
Definition tokens (expression : string) : list string :=
  Fields (ToLower (substring 0 (len expression - 1) expression)).

(** The guard of line 102: the expression is empty or does not end in a
    question mark. *)
Definition unterminated (expression : string) : bool :=
  (len expression =? 0)%nat || negb (HasSuffix expression "?").

(** A keyword/operand pair of the walk. *)
Inductive operation : Type := Plus | Minus | MultipliedBy | DividedBy.

Record pair : Type := { op : operation; operand : string }.

Definition pairTokens (p : pair) : list string :=
  match op p with
  | Plus => [KeywordPlus; operand p]
  | Minus => [KeywordMinus; operand p]
  | MultipliedBy => [KeywordMultiplied; KeywordBy; operand p]
  | DividedBy => [KeywordDivided; KeywordBy; operand p]
  end.

(** The token parses as an [int]. *)
Definition parses (tok : string) : Prop := (Atoi tok).2 = None.

(** The token parses as the [int] zero. *)
Definition parsesZero (tok : string) : Prop := Atoi tok = (0, None).

Definition pairOk (p : pair) : Prop :=
  parses (operand p) /\ (op p = DividedBy -> ~ parsesZero (operand p)).

(** One step of the left-to-right fold of the specification. *)
Definition applyPair (acc : float64) (p : pair) : float64 :=
  match op p with
  | Plus => f64_add acc (parseNum (operand p))
  | Minus => f64_sub acc (parseNum (operand p))
  | MultipliedBy => f64_mul acc (parseNum (operand p))
  | DividedBy => f64_div acc (parseNum (operand p))
  end.

(** The sentence of a first operand and a list of pairs. *)
Definition sentence (first : string) (pairs : list pair) : list string :=
  KeywordWhat :: KeywordIs :: first :: concat (map pairTokens pairs).

(** The walk of [validateExpression] over the tokens that are left,
    without indices: what [validateLoop] computes from index [i] on
    [drop i fields] (lemma [validateLoop_walk]). *)
Fixpoint walk (rest : list string) : bool * string :=
  match rest with
  | [] => (true, "")
  | kw :: rest1 =>
      if negb (isValidKeyword kw) then (false, UnsupportedOperationError)
      else if String.eqb kw KeywordMultiplied || String.eqb kw KeywordDivided then
        match rest1 with
        | [] => (false, InvalidExpressionError)
        | by_ :: rest2 =>
            if negb (String.eqb by_ KeywordBy) then (false, InvalidExpressionError)
            else
              match rest2 with
              | [] => (false, InvalidExpressionError)
              | x :: rest3 =>
                  let '(num, err) := Atoi x in
                  if String.eqb kw KeywordDivided && (negb (failed err) && (num =? 0))
                  then (false, InvalidExpressionError)
                  else if failed err then (false, InvalidExpressionError)
                  else walk rest3
              end
        end
      else
        match rest1 with
        | [] => (false, InvalidExpressionError)
        | x :: rest2 =>
            let '(_, err) := Atoi x in
            if failed err then (false, InvalidExpressionError)
            else walk rest2
        end
  end.

(** [validateExpression] on an expression that ends in a question mark,
    as a function of its tokens. *)
Definition validateTokens (fields : list string) : bool * string :=
  match fields with
  | f0 :: f1 :: first :: rest =>
      if negb (String.eqb f0 KeywordWhat) || negb (String.eqb f1 KeywordIs)
      then (false, NonMathQuestionError)
      else if failed (Atoi first).2 then (false, InvalidExpressionError)
      else walk rest
  | _ => (false, NonMathQuestionError)
  end.

(** The number of requests of [reqs] that reach the core with the
    expression [e] on the endpoint [endpoint]. *)
Definition targets (endpoint e : string) (req : request) : bool :=
  match req with
  | PostEvaluate p => String.eqb endpoint EvaluateEndpoint && String.eqb (Expression p) e
  | PostValidate p => String.eqb endpoint ValidateEndpoint && String.eqb (Expression p) e
  end.

Definition submissions (endpoint e : string) (reqs : list request) : nat :=
  length (List.filter (targets endpoint e) reqs).

(** The reported record is the one of [key]. *)
Definition about (key : MessageType) (errors : ErrorInfo.t) : Prop :=
  ErrorInfo.Expression errors = Content key /\ ErrorInfo.Endpoint errors = Endpoint key.

#[global] Instance about_dec (key : MessageType) (errors : ErrorInfo.t) :
  Decision (about key errors).
Proof. unfold about. apply _. Defined.

(** What a failure with reason [message] makes of the record stored
    under its key. *)
Definition bump (message : string) (stored : option MessageInfo) : MessageInfo :=
  match stored with
  | Some info =>
      {| Frequency := wrapInt (Frequency info + 1); ErrorType := ErrorType info |}
  | None => {| Frequency := 1; ErrorType := message |}
  end.

(** The store after a request with expression [e] on [endpoint]: as
    both handlers leave it (lemmas [evaluateHandler_recorded] and
    [validateHandler_recorded]). *)
Definition recorded (endpoint e : string) (store : ErrorStore) : ErrorStore :=
  if String.eqb e "" then store
  else
    match validateExpression e with
    | Ok (false, reason) =>
        let key := {| Content := e; Endpoint := endpoint |} in
        <[key := bump reason (store !! key)]> store
    | _ => store
    end.

(** Every byte of the string passes the test. *)
Fixpoint allBytes (test : ascii -> bool) (s : string) : bool :=
  match s with
  | EmptyString => true
  | String c s' => test c && allBytes test s'
  end.

(** The words of an operation, as they are written in an expression. *)
Definition operationText (o : operation) : string :=
  match o with
  | Plus => "plus"
  | Minus => "minus"
  | MultipliedBy => "multiplied by"
  | DividedBy => "divided by"
  end.






(** The record every request of [reqs] leaves under [key], from the
    record [stored] there before: lemma [serveAll_lookup]. *)
Definition recordAfter (reqs : list request) (stored : option MessageInfo)
    (key : MessageType) : option MessageInfo :=
  if String.eqb (Content key) "" then stored
  else
    match validateExpression (Content key) with
    | Ok (false, reason) =>
        Nat.iter (submissions (Endpoint key) (Content key) reqs)
          (fun record => Some (bump reason record)) stored
    | _ => stored
    end.

(* ===================================================================== *)
(** ** The loops, index free *)
(* ===================================================================== *)

Ltac nat_cmp :=
  cbn [length] in *;
  repeat match goal with
    | |- context [(?a <=? ?b)%nat] => destruct (Nat.leb_spec a b); try lia
    | |- context [(?a <? ?b)%nat] => destruct (Nat.ltb_spec a b); try lia
    | |- context [(?a =? ?b)%nat] => destruct (Nat.eqb_spec a b); try lia
    end.

(** Decides the comparisons between keyword constants in the goal. *)
Ltac kw_eval :=
  repeat match goal with
    | |- context [String.eqb ?a ?b] =>
        let v := eval vm_compute in (String.eqb a b) in
        lazymatch v with
        | true => change (String.eqb a b) with true
        | false => change (String.eqb a b) with false
        end
    | |- context [isValidKeyword ?a] =>
        let v := eval vm_compute in (isValidKeyword a) in
        lazymatch v with
        | true => change (isValidKeyword a) with true
        | false => change (isValidKeyword a) with false
        end
    end.

Lemma drop_cons_inv (fields : list string) (i : nat) (x : string) (rest : list string) :
  drop i fields = x :: rest ->
  fields !! i = Some x /\ length fields = (i + S (length rest))%nat
  /\ drop (i + 1) fields = rest.
Proof.
  intros H. split; [|split].
  - rewrite <- (Nat.add_0_r i), <- lookup_drop, H. reflexivity.
  - pose proof (length_drop fields i) as L. rewrite H in L. simpl in L. lia.
  - rewrite <- drop_drop, H. reflexivity.
Qed.

Lemma drop_nil_ge (fields : list string) (i : nat) :
  (length fields <= i)%nat -> drop i fields = [].
Proof. intros H. apply drop_ge. exact H. Qed.

(** The indexed loop of [validateExpression] is the walk over the tokens
    from [i] on, whenever the budget covers them. *)
Lemma validateLoop_walk (fuel : nat) :
  forall (fields : list string) (i : nat),
    (length (drop i fields) <= fuel)%nat ->
    validateLoop fuel fields i = Ok (walk (drop i fields)).
Proof.
  induction fuel as [|fuel IH]; intros fields i Hfuel.
  - destruct (drop i fields) eqn:E; [|simpl in Hfuel; lia].
    pose proof (length_drop fields i) as L. rewrite E in L.
    simpl. nat_cmp. reflexivity.
  - destruct (drop i fields) as [|kw rest1] eqn:E.
    { pose proof (length_drop fields i) as L. rewrite E in L.
      simpl. nat_cmp. reflexivity. }
    apply drop_cons_inv in E as (Hkw & Hlen & E1).
    cbn [validateLoop].
    unfold validateBody, validateOperand, idx, orElse, andThen.
    rewrite Hkw, Hlen. cbn [bind walk].
    destruct rest1 as [|a rest2].
    { nat_cmp. destruct (negb (isValidKeyword kw)); [reflexivity|].
      destruct (_ || _); nat_cmp; reflexivity. }
    apply drop_cons_inv in E1 as (Ha & _ & E2).
    replace (i + 1 + 1)%nat with (i + 2)%nat in * by lia.
    rewrite Ha.
    destruct rest2 as [|b rest3].
    { nat_cmp. destruct (negb (isValidKeyword kw)); [reflexivity|].
      destruct (_ || _); nat_cmp; cbn [bind].
      - destruct (negb _); reflexivity.
      - destruct (Atoi a) as [num err]. destruct (failed err); cbn [bind]; [reflexivity|].
        rewrite IH; rewrite E2; [reflexivity | simpl; lia]. }
    pose proof E2 as E2'.
    apply drop_cons_inv in E2 as (Hb & _ & E3).
    rewrite Hb.
    nat_cmp. destruct (negb (isValidKeyword kw)); [reflexivity|].
    destruct (_ || _); nat_cmp; cbn [bind].
    + destruct (negb (String.eqb a KeywordBy)) eqn:Ea; cbn [bind]; [reflexivity|].
      apply negb_false_iff in Ea. rewrite Ea.
      destruct (Atoi b) as [num err].
      assert (E3' : drop (i + 1 + 2) fields = rest3) by (rewrite <- E3; f_equal; lia).
      destruct (String.eqb kw KeywordDivided); cbn [bind andb];
        [destruct (negb (failed err) && (num =? 0)); cbn [bind]; [reflexivity|]|];
        (destruct (failed err); cbn [bind]; [reflexivity|]);
        (rewrite IH; rewrite E3'; [reflexivity | lia]).
    + destruct (Atoi a) as [num err]. destruct (failed err); cbn [bind]; [reflexivity|].
      rewrite IH; rewrite E2'; [reflexivity | simpl; lia].
Qed.

Lemma drop_nil_length (fields : list string) (i : nat) :
  drop i fields = [] -> (length fields <= i)%nat.
Proof.
  intros E. pose proof (length_drop fields i) as L. rewrite E in L. simpl in L. lia.
Qed.

Lemma drop_cons2_inv (fields : list string) (i : nat) (x y : string) (rest : list string) :
  drop i fields = x :: y :: rest ->
  fields !! i = Some x /\ fields !! (i + 1)%nat = Some y
  /\ length fields = (i + S (S (length rest)))%nat
  /\ drop (i + 2) fields = rest.
Proof.
  intros E. apply drop_cons_inv in E as (Hx & Hlen & E).
  apply drop_cons_inv in E as (Hy & _ & E).
  replace (i + 1 + 1)%nat with (i + 2)%nat in E by lia.
  simpl in Hlen. auto.
Qed.

(** On the tokens of a list of pairs the loop of [evaluateExpression]
    is the left-to-right fold of [applyPair]. *)
Lemma evaluateLoop_pairs (pairs : list pair) :
  forall (fuel : nat) (fields : list string) (i : nat) (acc : float64),
    drop i fields = concat (map pairTokens pairs) ->
    (length (drop i fields) <= fuel)%nat ->
    evaluateLoop fuel fields i acc = Ok (fold_left applyPair pairs acc, "").
Proof.
  induction pairs as [|p pairs IH]; intros fuel fields i acc E Hfuel.
  - apply drop_nil_length in E. destruct fuel; simpl; nat_cmp; reflexivity.
  - rewrite E in Hfuel. cbn [map concat] in E, Hfuel.
    destruct p as [o x].
    destruct fuel as [|fuel]; [destruct o; simpl in Hfuel; lia|].
    cbn [evaluateLoop fold_left]. unfold evaluateBody, idx.
    destruct o; unfold pairTokens at 1 in E; unfold pairTokens at 1 in Hfuel;
      cbn [op operand app] in E, Hfuel; unfold applyPair at 2; cbn [op operand].
    + apply drop_cons2_inv in E as (Hk & Hx & Hlen & E).
      rewrite Hk, Hx, Hlen. nat_cmp. kw_eval. cbn [bind].
      apply IH; [exact E | rewrite E; simpl in Hfuel; lia].
    + apply drop_cons2_inv in E as (Hk & Hx & Hlen & E).
      rewrite Hk, Hx, Hlen. nat_cmp. kw_eval. cbn [bind].
      apply IH; [exact E | rewrite E; simpl in Hfuel; lia].
    + apply drop_cons2_inv in E as (Hk & Hby & Hlen & E).
      apply drop_cons_inv in E as (Hx & _ & E).
      rewrite Hk, Hx, Hlen. nat_cmp. kw_eval. cbn [bind].
      replace (i + 2 + 1)%nat with (i + 1 + 2)%nat in E by lia.
      apply IH; [exact E | rewrite E; simpl in Hfuel; lia].
    + apply drop_cons2_inv in E as (Hk & Hby & Hlen & E).
      apply drop_cons_inv in E as (Hx & _ & E).
      rewrite Hk, Hx, Hlen. nat_cmp. kw_eval. cbn [bind].
      replace (i + 2 + 1)%nat with (i + 1 + 2)%nat in E by lia.
      apply IH; [exact E | rewrite E; simpl in Hfuel; lia].
Qed.

(* ===================================================================== *)
(** ** The walk accepts exactly the sequences of well-formed pairs *)
(* ===================================================================== *)

Lemma isValidKeyword_inv (kw : string) :
  isValidKeyword kw = true ->
  kw = KeywordPlus \/ kw = KeywordMinus \/ kw = KeywordMultiplied \/ kw = KeywordDivided.
Proof.
  unfold isValidKeyword. cbn [existsb]. rewrite !orb_true_iff, !String.eqb_eq.
  intuition (subst; auto; discriminate).
Qed.

Lemma failed_false (x : string) : failed (Atoi x).2 = false <-> parses x.
Proof. unfold parses. destruct (Atoi x).2; simpl; split; congruence. Qed.

Lemma zero_test (x : string) (num : Z) (err : option error) :
  Atoi x = (num, err) ->
  negb (failed err) && (num =? 0) = true <-> parsesZero x.
Proof.
  intros E. unfold parsesZero. rewrite E, andb_true_iff, negb_true_iff, Z.eqb_eq.
  destruct err; simpl; split.
  - intros [H _]. discriminate H.
  - intros H. discriminate H.
  - intros [_ ->]. reflexivity.
  - intros H. inversion H. auto.
Qed.

Lemma walk_pairs (pairs : list pair) :
  Forall pairOk pairs -> walk (concat (map pairTokens pairs)) = (true, "").
Proof.
  induction 1 as [|[o x] pairs [Hx Hz] _ IH]; [reflexivity|].
  cbn [map concat]. cbn [op operand] in Hx, Hz.
  apply failed_false in Hx.
  destruct (Atoi x) as [num err] eqn:E. cbn [snd] in Hx.
  destruct o; unfold pairTokens at 1; cbn [op operand app walk]; kw_eval;
    cbn [negb orb andb]; kw_eval; cbn [negb]; rewrite E.
  1-3: rewrite Hx; exact IH.
  destruct (negb (failed err) && (num =? 0)) eqn:Z0; [|rewrite Hx; exact IH].
  apply (zero_test x num err E) in Z0. exfalso. exact (Hz eq_refl Z0).
Qed.

Lemma walk_accepted_pairs (n : nat) :
  forall rest : list string,
    (length rest <= n)%nat ->
    (walk rest).1 = true ->
    exists pairs, rest = concat (map pairTokens pairs) /\ Forall pairOk pairs.
Proof.
  induction n as [|n IH]; intros rest Hn Hw.
  - destruct rest; [|simpl in Hn; lia]. exists []. split; [reflexivity | constructor].
  - destruct rest as [|kw rest1]; [exists []; split; [reflexivity | constructor]|].
    cbn [walk] in Hw.
    destruct (isValidKeyword kw) eqn:Ekw; [|discriminate Hw]. cbn [negb] in Hw.
    apply isValidKeyword_inv in Ekw as [-> | [-> | [-> | ->]]]; revert Hw; kw_eval;
      cbn [orb andb]; intros Hw.
    + destruct rest1 as [|x rest2]; [discriminate Hw|].
      destruct (Atoi x) as [num err] eqn:E.
      destruct (failed err) eqn:Ef; [discriminate Hw|].
      destruct (IH rest2) as (pairs & -> & Hok); [simpl in Hn; lia | exact Hw |].
      exists ({| op := Plus; operand := x |} :: pairs). split; [reflexivity|].
      constructor; [|exact Hok]. split; [|discriminate].
      apply failed_false. cbn [operand]. rewrite E. exact Ef.
    + destruct rest1 as [|x rest2]; [discriminate Hw|].
      destruct (Atoi x) as [num err] eqn:E.
      destruct (failed err) eqn:Ef; [discriminate Hw|].
      destruct (IH rest2) as (pairs & -> & Hok); [simpl in Hn; lia | exact Hw |].
      exists ({| op := Minus; operand := x |} :: pairs). split; [reflexivity|].
      constructor; [|exact Hok]. split; [|discriminate].
      apply failed_false. cbn [operand]. rewrite E. exact Ef.
    + destruct rest1 as [|by_ rest2]; [discriminate Hw|].
      destruct (String.eqb by_ KeywordBy) eqn:Eby; [|discriminate Hw].
      apply String.eqb_eq in Eby as ->. cbn [negb] in Hw.
      destruct rest2 as [|x rest3]; [discriminate Hw|].
      destruct (Atoi x) as [num err] eqn:E.
      destruct (failed err) eqn:Ef; [discriminate Hw|].
      destruct (IH rest3) as (pairs & -> & Hok); [simpl in Hn; lia | exact Hw |].
      exists ({| op := MultipliedBy; operand := x |} :: pairs). split; [reflexivity|].
      constructor; [|exact Hok]. split; [|discriminate].
      apply failed_false. cbn [operand]. rewrite E. exact Ef.
    + destruct rest1 as [|by_ rest2]; [discriminate Hw|].
      destruct (String.eqb by_ KeywordBy) eqn:Eby; [|discriminate Hw].
      apply String.eqb_eq in Eby as ->. cbn [negb] in Hw.
      destruct rest2 as [|x rest3]; [discriminate Hw|].
      destruct (Atoi x) as [num err] eqn:E.
      destruct (negb (failed err) && (num =? 0)) eqn:Z0; [discriminate Hw|].
      destruct (failed err) eqn:Ef; [discriminate Hw|].
      destruct (IH rest3) as (pairs & -> & Hok); [simpl in Hn; lia | exact Hw |].
      exists ({| op := DividedBy; operand := x |} :: pairs). split; [reflexivity|].
      constructor; [|exact Hok]. split.
      * apply failed_false. cbn [operand]. rewrite E. exact Ef.
      * intros _ Hz. cbn [operand] in Hz.
        apply (zero_test x num err E) in Hz. rewrite Ef in Hz. congruence.
Qed.


Lemma walk_rejected (n : nat) :
  forall rest : list string,
    (length rest <= n)%nat ->
    (walk rest).1 = false ->
    (walk rest).2 = InvalidExpressionError \/ (walk rest).2 = UnsupportedOperationError.
Proof.
  induction n as [|n IH]; intros rest Hn.
  - destruct rest; [discriminate | simpl in Hn; lia].
  - destruct rest as [|kw rest1]; [discriminate|].
    cbn [walk].
    destruct (negb (isValidKeyword kw)); [right; reflexivity|].
    destruct (_ || _).
    + destruct rest1 as [|by_ rest2]; [left; reflexivity|].
      destruct (negb _); [left; reflexivity|].
      destruct rest2 as [|x rest3]; [left; reflexivity|].
      destruct (Atoi x) as [num err].
      destruct (_ && _); [left; reflexivity|].
      destruct (failed err); [left; reflexivity|].
      apply IH. simpl in Hn. lia.
    + destruct rest1 as [|x rest2]; [left; reflexivity|].
      destruct (Atoi x) as [num err].
      destruct (failed err); [left; reflexivity|].
      apply IH. simpl in Hn. lia.
Qed.

(* ===================================================================== *)
(** ** The two functions on strings *)
(* ===================================================================== *)

Lemma sliceTo_last (s : string) :
  (len s =? 0)%nat = false ->
  sliceTo s (Z.of_nat (len s) - 1) = Ok (substring 0 (len s - 1) s).
Proof.
  intros H. apply Nat.eqb_neq in H. unfold sliceTo.
  destruct (Z.leb_spec 0 (Z.of_nat (len s) - 1)); [|lia].
  destruct (Z.leb_spec (Z.of_nat (len s) - 1) (Z.of_nat (len s))); [|lia].
  cbn [andb]. do 2 f_equal. lia.
Qed.

(** [validateExpression] never panics and never exhausts its budget: it
    is the guard followed by [validateTokens]. *)
Lemma validateExpression_tokens (s : string) :
  validateExpression s =
  Ok (if unterminated s then (false, InvalidExpressionError) else validateTokens (tokens s)).
Proof.
  unfold validateExpression, unterminated.
  destruct (len s =? 0)%nat eqn:E0; [reflexivity|].
  destruct (negb (HasSuffix s "?")); [reflexivity|]. cbn [orb].
  rewrite (sliceTo_last s E0). cbn [bind]. fold (tokens s).
  destruct (tokens s) as [|f0 [|f1 [|first rest]]] eqn:T; try reflexivity.
  cbn [length]. unfold orElse, idx. cbn [Nat.ltb Nat.leb lookup list_lookup bind validateTokens].
  destruct (negb (String.eqb f0 KeywordWhat)); [reflexivity|].
  destruct (negb (String.eqb f1 KeywordIs)); [reflexivity|]. cbn [bind orb].
  destruct (Atoi first) as [num err]. cbn [snd].
  destruct (failed err); [reflexivity|].
  apply (validateLoop_walk _ (f0 :: f1 :: first :: rest) 3). simpl. rewrite drop_0. lia.
Qed.

Lemma validateTokens_accepted (fields : list string) :
  (validateTokens fields).1 = true ->
  exists first pairs,
    fields = sentence first pairs /\ parses first /\ Forall pairOk pairs.
Proof.
  destruct fields as [|f0 [|f1 [|first rest]]]; try discriminate. cbn [validateTokens].
  destruct (String.eqb f0 KeywordWhat) eqn:E0; [|discriminate].
  destruct (String.eqb f1 KeywordIs) eqn:E1; [|discriminate]. cbn [negb orb].
  destruct (failed (Atoi first).2) eqn:Ef; [discriminate|]. intros Hw.
  apply String.eqb_eq in E0 as ->. apply String.eqb_eq in E1 as ->.
  destruct (walk_accepted_pairs (length rest) rest (le_n _) Hw) as (pairs & -> & Hok).
  exists first, pairs. split; [reflexivity|]. split; [|exact Hok].
  apply failed_false. exact Ef.
Qed.

Lemma validateTokens_sentence (first : string) (pairs : list pair) :
  parses first -> Forall pairOk pairs ->
  validateTokens (sentence first pairs) = (true, "").
Proof.
  intros Hf Hok. unfold sentence. cbn [validateTokens]. kw_eval. cbn [negb orb].
  apply failed_false in Hf. rewrite Hf. apply walk_pairs. exact Hok.
Qed.

Lemma validateTokens_reason (fields : list string) :
  match validateTokens fields with
  | (true, reason) => reason = ""
  | (false, reason) =>
      reason = InvalidExpressionError \/ reason = NonMathQuestionError
      \/ reason = UnsupportedOperationError
  end.
Proof.
  destruct (validateTokens fields) as [[|] reason] eqn:E.
  - destruct (validateTokens_accepted fields) as (first & pairs & -> & Hf & Hok).
    { rewrite E. reflexivity. }
    rewrite (validateTokens_sentence first pairs Hf Hok) in E. congruence.
  - destruct fields as [|f0 [|f1 [|first rest]]]; cbn [validateTokens] in E;
      try (injection E as <-; auto).
    destruct (_ || _); [injection E as <-; auto|].
    destruct (failed _); [injection E as <-; auto|].
    destruct (walk_rejected (length rest) rest (le_n _)) as [H|H];
      rewrite E in *; cbn [fst snd] in *; auto.
Qed.

Lemma evaluateExpression_rejected (s reason : string) :
  validateExpression s = Ok (false, reason) ->
  evaluateExpression s = Ok (f64_zero, reason).
Proof. intros H. unfold evaluateExpression. rewrite H. reflexivity. Qed.

Lemma evaluateExpression_sentence (s first : string) (pairs : list pair) :
  unterminated s = false ->
  tokens s = sentence first pairs ->
  parses first -> Forall pairOk pairs ->
  evaluateExpression s = Ok (fold_left applyPair pairs (parseNum first), "").
Proof.
  intros Hu T Hf Hok. unfold evaluateExpression.
  rewrite validateExpression_tokens, Hu, T, (validateTokens_sentence first pairs Hf Hok).
  cbn [bind negb]. apply orb_false_iff in Hu as [E0 _].
  rewrite (sliceTo_last s E0). cbn [bind]. fold (tokens s). rewrite T.
  unfold sentence at 1. unfold idx. cbn [lookup list_lookup bind].
  apply evaluateLoop_pairs; unfold sentence; simpl; rewrite drop_0; [reflexivity | lia].
Qed.

Lemma validateExpression_accepted (s reason : string) :
  validateExpression s = Ok (true, reason) ->
  unterminated s = false /\ reason = ""
  /\ exists first pairs,
       tokens s = sentence first pairs /\ parses first /\ Forall pairOk pairs.
Proof.
  rewrite validateExpression_tokens. intros H. injection H as H.
  destruct (unterminated s); [discriminate H|]. split; [reflexivity|].
  pose proof (validateTokens_reason (tokens s)) as R. rewrite H in R.
  split; [exact R|]. apply validateTokens_accepted. rewrite H. reflexivity.
Qed.

(* ===================================================================== *)
(** ** Expressions that end in a question mark *)
(* ===================================================================== *)

Lemma len_question (body : string) : len (body ++ "?") = S (len body).
Proof. unfold len. induction body as [|c body IH]; simpl; [reflexivity | rewrite IH; reflexivity]. Qed.

Lemma substring_body (body : string) : substring 0 (len body) (body ++ "?") = body.
Proof. unfold len. induction body as [|c body IH]; simpl; [reflexivity | rewrite IH; reflexivity]. Qed.

Lemma substring_question (body : string) : substring (len body) 1 (body ++ "?") = "?".
Proof. unfold len. induction body as [|c body IH]; simpl; [reflexivity | exact IH]. Qed.

Lemma HasSuffix_question (body : string) : HasSuffix (body ++ "?") "?" = true.
Proof.
  unfold HasSuffix. rewrite len_question. change (len "?") with 1%nat.
  replace (S (len body) - 1)%nat with (len body) by lia.
  rewrite substring_question. reflexivity.
Qed.


Lemma unterminated_question (body : string) : unterminated (body ++ "?") = false.
Proof.
  unfold unterminated. rewrite HasSuffix_question, len_question. reflexivity.
Qed.


Lemma tokens_question (body : string) : tokens (body ++ "?") = Fields (ToLower body).
Proof.
  unfold tokens. rewrite len_question.
  replace (S (len body) - 1)%nat with (len body) by lia.
  rewrite substring_body. reflexivity.
Qed.

(** The two functions on [body ++ "?"], as functions of the tokens of
    the body. *)
Lemma validateExpression_question (body : string) :
  validateExpression (body ++ "?") = Ok (validateTokens (Fields (ToLower body))).
Proof.
  rewrite validateExpression_tokens, unterminated_question, tokens_question. reflexivity.
Qed.

Lemma parseNum_value (x : string) : parseNum x = float64_of_int (Atoi x).1.
Proof. unfold parseNum. destruct (Atoi x). reflexivity. Qed.

(** Every call of [validateExpression] returns, with a reason that is
    empty exactly when the flag is [true]. *)
Lemma validateExpression_returns (s : string) :
  validateExpression s = Ok (true, "")
  \/ exists reason, validateExpression s = Ok (false, reason) /\ reason <> "".
Proof.
  rewrite validateExpression_tokens. destruct (unterminated s).
  - right. eexists. split; [reflexivity | discriminate].
  - pose proof (validateTokens_reason (tokens s)) as R.
    destruct (validateTokens (tokens s)) as [[|] reason].
    + left. subst. reflexivity.
    + right. exists reason. split; [reflexivity|].
      destruct R as [->|[->| ->]]; discriminate.
Qed.

(* ===================================================================== *)
(** ** Agreement of the two passes *)
(* ===================================================================== *)

(** C1. For every expression string, [validateExpression] returns either
    [(true, "")] or [(false, r)] with [r] non-empty; in the second case
    [evaluateExpression] returns [(0, r)] with the same reason, in the
    first it returns a value with the empty reason; and every reason
    [evaluateExpression] returns is the one [validateExpression]
    returns. *)
Theorem evaluate_agrees_with_validate (s : string) :
  (validateExpression s = Ok (true, "")
   \/ exists r, validateExpression s = Ok (false, r) /\ r <> "")
  /\ (forall r, validateExpression s = Ok (false, r) -> r <> "" ->
        evaluateExpression s = Ok (f64_zero, r))
  /\ (validateExpression s = Ok (true, "") ->
        exists value, evaluateExpression s = Ok (value, ""))
  /\ (forall value r, evaluateExpression s = Ok (value, r) ->
        exists valid, validateExpression s = Ok (valid, r)).
Proof.
  assert (Hacc : validateExpression s = Ok (true, "") ->
                 exists value, evaluateExpression s = Ok (value, "")).
  { intros H. destruct (validateExpression_accepted s "" H) as (Hu & _ & first & pairs & T & Hf & Hok).
    eexists. apply (evaluateExpression_sentence s first pairs Hu T Hf Hok). }
  split; [apply validateExpression_returns|].
  split; [intros r H _; apply evaluateExpression_rejected; exact H|].
  split; [exact Hacc|].
  intros value r He.
  destruct (validateExpression_returns s) as [H|(r' & H & _)].
  - destruct (Hacc H) as [value' He']. rewrite He' in He. injection He as _ <-.
    exists true. exact H.
  - rewrite (evaluateExpression_rejected s r' H) in He. injection He as _ <-.
    exists false. exact H.
Qed.

Lemma evaluate_agrees_with_validate_witness :
  evaluateExpression "What is 15 divided 3?" = Ok (f64_zero, InvalidExpressionError)
  /\ exists value, evaluateExpression "What is 2 plus 3?" = Ok (value, "").
Proof.
  split.
  - apply (proj1 (proj2 (evaluate_agrees_with_validate "What is 15 divided 3?"))).
    + vm_compute. reflexivity.
    + discriminate.
  - apply (proj1 (proj2 (proj2 (evaluate_agrees_with_validate "What is 2 plus 3?")))).
    vm_compute. reflexivity.
Defined.

(* ===================================================================== *)
(** ** Left-to-right evaluation *)
(* ===================================================================== *)



(* ===================================================================== *)
(** ** The order of the checks *)
(* ===================================================================== *)



(* ===================================================================== *)
(** ** No panic *)
(* ===================================================================== *)

(** C6. For every input string both functions return a pair: no index
    or slice is out of range and no budget is exhausted.  The same holds
    of the two loops on any token sequence: the loop of
    [validateExpression] returns on every sequence, the loop of
    [evaluateExpression] on every sequence the first loop accepts.  The
    loop of [evaluateExpression] alone does read past the end of tokens
    that were not validated, so it is the validation before it that
    keeps the reads of [fields[i+2]] in range. *)
Theorem validate_and_evaluate_total :
  (forall s, exists valid reason, validateExpression s = Ok (valid, reason))
  /\ (forall s, exists value reason, evaluateExpression s = Ok (value, reason))
  /\ (forall fields, exists valid reason,
        validateLoop (length fields) fields 3 = Ok (valid, reason))
  /\ (forall fields reason acc,
        validateLoop (length fields) fields 3 = Ok (true, reason) ->
        exists value, evaluateLoop (length fields) fields 3 acc = Ok (value, ""))
  /\ (forall acc, evaluateLoop 5 ["what"; "is"; "1"; "multiplied"; "by"] 3 acc = Panic).
Proof.
  assert (Hdrop : forall fields : list string,
             (length (drop 3 fields) <= length fields)%nat).
  { intros fields. rewrite length_drop. lia. }
  split; [|split; [|split; [|split]]].
  - intros s. rewrite validateExpression_tokens.
    destruct (if unterminated s then _ else _) as [valid reason].
    exists valid, reason. reflexivity.
  - intros s.
    destruct (validateExpression_returns s) as [H|(r & H & _)].
    + destruct (validateExpression_accepted s "" H) as (Hu & _ & first & pairs & T & Hf & Hok).
      do 2 eexists. apply (evaluateExpression_sentence s first pairs Hu T Hf Hok).
    + do 2 eexists. apply evaluateExpression_rejected. exact H.
  - intros fields. rewrite (validateLoop_walk _ fields 3 (Hdrop fields)).
    destruct (walk (drop 3 fields)) as [valid reason]. exists valid, reason. reflexivity.
  - intros fields reason acc. rewrite (validateLoop_walk _ fields 3 (Hdrop fields)).
    intros H. injection H as H.
    destruct (walk_accepted_pairs _ (drop 3 fields) (le_n _)) as (pairs & E & _).
    { rewrite H. reflexivity. }
    eexists. apply (evaluateLoop_pairs pairs _ fields 3 acc E (Hdrop fields)).
  - intros acc. reflexivity.
Qed.

Lemma validate_and_evaluate_total_witness :
  exists value,
    evaluateLoop 6 ["what"; "is"; "1"; "multiplied"; "by"; "4"] 3 (float64_of_int 1)
    = Ok (value, "").
Proof.
  apply (proj1 (proj2 (proj2 (proj2 validate_and_evaluate_total)))
           ["what"; "is"; "1"; "multiplied"; "by"; "4"] "").
  vm_compute. reflexivity.
Defined.

(* ===================================================================== *)
(** ** Failures inside the walk *)
(* ===================================================================== *)

(** Well-formed pairs are walked over. *)
Lemma walk_skip (pairs : list pair) (suffix : list string) :
  Forall pairOk pairs ->
  walk (concat (map pairTokens pairs) ++ suffix) = walk suffix.
Proof.
  induction 1 as [|[o x] pairs [Hx Hz] _ IH]; [reflexivity|].
  cbn [map concat]. cbn [op operand] in Hx, Hz. rewrite <- app_assoc.
  apply failed_false in Hx.
  destruct (Atoi x) as [num err] eqn:E. cbn [snd] in Hx.
  destruct o; unfold pairTokens at 1; cbn [op operand app walk]; kw_eval;
    cbn [negb orb andb]; kw_eval; cbn [negb]; rewrite E.
  1-3: rewrite Hx; exact IH.
  destruct (negb (failed err) && (num =? 0)) eqn:Z0; [|rewrite Hx; exact IH].
  apply (zero_test x num err E) in Z0. exfalso. exact (Hz eq_refl Z0).
Qed.

Lemma validateTokens_skip (first : string) (pairs : list pair) (suffix : list string) :
  parses first -> Forall pairOk pairs ->
  validateTokens (sentence first pairs ++ suffix) = walk suffix.
Proof.
  intros Hf Hok. unfold sentence. cbn [app validateTokens]. kw_eval. cbn [negb orb].
  apply failed_false in Hf. rewrite Hf. apply walk_skip. exact Hok.
Qed.

Lemma walk_divided_by_zero (z : string) (post : list string) :
  parsesZero z ->
  walk (KeywordDivided :: KeywordBy :: z :: post) = (false, InvalidExpressionError).
Proof.
  intros Hz. cbn [walk]. kw_eval. cbn [negb orb andb]. rewrite Hz. reflexivity.
Qed.

(** Wherever [divided by 0] stands among the tokens, the walk rejects. *)
Lemma walk_rejects_divided_by_zero (z : string) (post : list string) (n : nat) :
  parsesZero z ->
  forall pre : list string,
    (length pre <= n)%nat ->
    (walk (pre ++ KeywordDivided :: KeywordBy :: z :: post)).1 = false.
Proof.
  intros Hz. induction n as [|n IH]; intros pre Hn.
  - destruct pre; [|simpl in Hn; lia]. cbn [app].
    rewrite (walk_divided_by_zero z post Hz). reflexivity.
  - destruct pre as [|a pre1]; [cbn [app]; rewrite (walk_divided_by_zero z post Hz); reflexivity|].
    cbn [app walk].
    destruct (negb (isValidKeyword a)); [reflexivity|].
    destruct (_ || _).
    + destruct pre1 as [|b pre2]; cbn [app]; [kw_eval; reflexivity|].
      destruct (negb (String.eqb b KeywordBy)); [reflexivity|].
      destruct pre2 as [|c pre3]; cbn [app].
      * change (Atoi KeywordDivided) with (0, Some ErrSyntax).
        cbn [failed negb andb]. destruct (String.eqb a KeywordDivided); reflexivity.
      * destruct (Atoi c) as [num err]. destruct (_ && _); [reflexivity|].
        destruct (failed err); [reflexivity|]. apply IH. simpl in Hn. lia.
    + destruct pre1 as [|b pre2]; cbn [app].
      * change (Atoi KeywordDivided) with (0, Some ErrSyntax). reflexivity.
      * destruct (Atoi b) as [num err].
        destruct (failed err); [reflexivity|]. apply IH. simpl in Hn. lia.
Qed.

Lemma validateTokens_rejects_divided_by_zero (z : string) (pre post : list string) :
  parsesZero z ->
  (validateTokens (pre ++ KeywordDivided :: KeywordBy :: z :: post)).1 = false.
Proof.
  intros Hz.
  destruct pre as [|f0 [|f1 [|first rest]]]; cbn [app validateTokens].
  - reflexivity.
  - kw_eval. rewrite orb_true_r. reflexivity.
  - destruct (_ || _); [reflexivity|].
    change (Atoi KeywordDivided) with (0, Some ErrSyntax). reflexivity.
  - destruct (_ || _); [reflexivity|]. destruct (failed _); [reflexivity|].
    apply (walk_rejects_divided_by_zero z post (length rest) Hz rest (le_n _)).
Qed.

(* ===================================================================== *)
(** ** Division by zero *)
(* ===================================================================== *)

(** C4, as stated, fails: an expression with [divided by 0] among its
    tokens need not be reported as an invalid expression.  In
    [What is 2 foo 3 divided by 0?] the walk stops at [foo], two
    tokens before [divided], and the reason is the unsupported
    operation. *)
Lemma divided_by_zero_reason_counterexample :
  tokens "What is 2 foo 3 divided by 0?"
  = (["what"; "is"; "2"; "foo"; "3"] ++ KeywordDivided :: KeywordBy :: "0" :: [])%list
  /\ parsesZero "0"
  /\ validateExpression "What is 2 foo 3 divided by 0?" = Ok (false, UnsupportedOperationError)
  /\ ~ (forall body pre z post,
          Fields (ToLower body) = (pre ++ KeywordDivided :: KeywordBy :: z :: post)%list ->
          parsesZero z ->
          validateExpression (body ++ "?") = Ok (false, InvalidExpressionError)).
Proof.
  split; [vm_compute; reflexivity|].
  split; [vm_compute; reflexivity|].
  split; [vm_compute; reflexivity|].
  intros H.
  specialize (H "What is 2 foo 3 divided by 0" ["what"; "is"; "2"; "foo"; "3"] "0" []).
  assert (E : validateExpression ("What is 2 foo 3 divided by 0" ++ "?")
              = Ok (false, UnsupportedOperationError)) by (vm_compute; reflexivity).
  rewrite H in E; [discriminate E | vm_compute; reflexivity | vm_compute; reflexivity].
Qed.

(** C4, amended.  An expression with [divided by z] among its tokens,
    [z] an integer zero, is always rejected by [validateExpression],
    with a non-empty reason; the reason is the invalid expression
    whenever the tokens before [divided] are [what is], a first operand
    and complete pairs, so that the walk arrives at [divided].  A zero
    in any other operand position is accepted: a sentence whose pairs
    are well formed validates, and zero is excluded only as the operand
    of [divided by]. *)
Theorem divided_by_zero_rejected :
  (forall body pre z post,
      Fields (ToLower body) = (pre ++ KeywordDivided :: KeywordBy :: z :: post)%list ->
      parsesZero z ->
      exists reason,
        validateExpression (body ++ "?") = Ok (false, reason) /\ reason <> "")
  /\ (forall body first pairs z post,
        Fields (ToLower body)
        = (sentence first pairs ++ KeywordDivided :: KeywordBy :: z :: post)%list ->
        parses first -> Forall pairOk pairs -> parsesZero z ->
        validateExpression (body ++ "?") = Ok (false, InvalidExpressionError))
  /\ (forall body first pairs,
        Fields (ToLower body) = sentence first pairs ->
        parses first ->
        Forall (fun p => parses (operand p)
                         /\ (op p = DividedBy -> ~ parsesZero (operand p))) pairs ->
        validateExpression (body ++ "?") = Ok (true, ""))
  /\ validateExpression "What is 2 multiplied by 3 divided by 0?"
     = Ok (false, InvalidExpressionError)
  /\ validateExpression "What is 0 plus 0 minus 0 multiplied by 0?" = Ok (true, "").
Proof.
  split; [|split; [|split; [|split; vm_compute; reflexivity]]].
  - intros body pre z post T Hz.
    pose proof (validateTokens_rejects_divided_by_zero z pre post Hz) as R.
    destruct (validateExpression_returns (body ++ "?")) as [H|H]; [|exact H].
    rewrite validateExpression_question, T in H. injection H as H.
    rewrite H in R. discriminate R.
  - intros body first pairs z post T Hf Hok Hz.
    rewrite validateExpression_question, T, (validateTokens_skip _ _ _ Hf Hok).
    rewrite (walk_divided_by_zero z post Hz). reflexivity.
  - intros body first pairs T Hf Hok.
    rewrite validateExpression_question, T. f_equal.
    apply validateTokens_sentence; [exact Hf | exact Hok].
Qed.

Lemma divided_by_zero_rejected_witness :
  (exists reason,
      validateExpression ("What is 2 foo 3 divided by 0" ++ "?") = Ok (false, reason)
      /\ reason <> "")
  /\ validateExpression ("What is 2 plus 3 divided by -0 plus 1" ++ "?")
     = Ok (false, InvalidExpressionError)
  /\ validateExpression ("What is 0 multiplied by 0" ++ "?") = Ok (true, "").
Proof.
  split; [|split].
  - apply (proj1 divided_by_zero_rejected _ ["what"; "is"; "2"; "foo"; "3"] "0" []);
      vm_compute; reflexivity.
  - apply (proj1 (proj2 divided_by_zero_rejected) _ "2"
             [{| op := Plus; operand := "3" |}] "-0" ["plus"; "1"]).
    + vm_compute. reflexivity.
    + vm_compute. reflexivity.
    + repeat constructor; vm_compute; congruence.
    + vm_compute. reflexivity.
  - apply (proj1 (proj2 (proj2 divided_by_zero_rejected)) _ "0"
             [{| op := MultipliedBy; operand := "0" |}]).
    + vm_compute. reflexivity.
    + vm_compute. reflexivity.
    + repeat constructor; vm_compute; congruence.
Defined.

(* ===================================================================== *)
(** ** Malformed pairs *)
(* ===================================================================== *)



(* ===================================================================== *)
(** ** Operands *)
(* ===================================================================== *)

Lemma parseUintLoop_value (s : string) :
  forall n, 0 <= n ->
    ((parseUintLoop s n).2 = Some ErrRange -> (parseUintLoop s n).1 = maxUint64)
    /\ ((parseUintLoop s n).2 = None -> 0 <= (parseUintLoop s n).1).
Proof.
  induction s as [|c s IH]; intros n Hn; cbn [parseUintLoop].
  - split; [discriminate | intros _; exact Hn].
  - destruct (isDigit c); [|split; discriminate].
    destruct (maxUint64 / 10 + 1 <=? n); [split; [reflexivity | discriminate]|].
    cbv zeta.
    destruct (_ || _); [split; [reflexivity | discriminate]|].
    apply IH. apply Z.mod_pos_bound. reflexivity.
Qed.





(* ===================================================================== *)
(** ** Lower case and tokens *)
(* ===================================================================== *)

Lemma isSpace_lowerByte (c : ascii) : isSpace (lowerByte c) = isSpace c.
Proof. destruct c as [[] [] [] [] [] [] [] []]; vm_compute; reflexivity. Qed.

Lemma isDigit_lowerByte (c : ascii) : isDigit c = true -> lowerByte c = c.
Proof. destruct c as [[] [] [] [] [] [] [] []]; vm_compute; congruence. Qed.

Lemma ToLower_snoc (w : string) (c : ascii) :
  ToLower (w ++ String c EmptyString) = ToLower w ++ String (lowerByte c) EmptyString.
Proof. induction w as [|d w IH]; simpl; [reflexivity | rewrite IH; reflexivity]. Qed.

Lemma fieldsFrom_ToLower (s : string) :
  forall cur : option string,
    fieldsFrom (option_map ToLower cur) (ToLower s) = map ToLower (fieldsFrom cur s).
Proof.
  induction s as [|c s IH]; intros cur; cbn [ToLower fieldsFrom].
  - destruct cur; reflexivity.
  - rewrite isSpace_lowerByte. destruct (isSpace c).
    + destruct cur; cbn [option_map map]; rewrite <- (IH None); reflexivity.
    + destruct cur; cbn [option_map]; rewrite <- IH; cbn [option_map];
        rewrite ?ToLower_snoc; reflexivity.
Qed.

(** Lower-casing the expression lower-cases each of its fields. *)
Lemma Fields_ToLower (s : string) : Fields (ToLower s) = map ToLower (Fields s).
Proof. apply (fieldsFrom_ToLower s None). Qed.

Lemma parseUintLoop_digits (s : string) :
  forall n, (parseUintLoop s n).2 = None -> ToLower s = s.
Proof.
  induction s as [|c s IH]; intros n; cbn [parseUintLoop ToLower]; [reflexivity|].
  destruct (isDigit c) eqn:D; [|discriminate].
  destruct (maxUint64 / 10 + 1 <=? n); [discriminate|]. cbv zeta.
  destruct (_ || _); [discriminate|].
  intros H. rewrite (isDigit_lowerByte c D), (IH _ H). reflexivity.
Qed.

(** A token that parses has no upper-case letter. *)
Lemma parses_ToLower (x : string) : parses x -> ToLower x = x.
Proof.
  unfold parses, Atoi, ParseInt. destruct x as [|c s]; [discriminate|].
  cbv zeta. set (neg := Ascii.eqb c "-"%char).
  destruct (Ascii.eqb c "+"%char || neg) eqn:Sg.
  - assert (Hc : lowerByte c = c).
    { subst neg. apply orb_true_iff in Sg as [E|E]; apply Ascii.eqb_eq in E; subst c; reflexivity. }
    destruct (ParseUint s) as [un [[|]|]] eqn:P; [discriminate| |].
    + pose proof (parseUintLoop_value s 0 (Z.le_refl 0)) as [Hv _].
      unfold ParseUint in P. destruct s; [discriminate P|]. rewrite P in Hv.
      cbn [fst snd] in Hv. rewrite (Hv eq_refl). destruct neg; vm_compute; discriminate.
    + intros _. cbn [ToLower]. rewrite Hc. f_equal.
      unfold ParseUint in P. destruct s; [reflexivity|].
      apply (parseUintLoop_digits _ 0). rewrite P. reflexivity.
  - destruct (ParseUint (String c s)) as [un [[|]|]] eqn:P; [discriminate| |].
    + pose proof (parseUintLoop_value (String c s) 0 (Z.le_refl 0)) as [Hv _].
      unfold ParseUint in P. rewrite P in Hv.
      cbn [fst snd] in Hv. rewrite (Hv eq_refl). destruct neg; vm_compute; discriminate.
    + intros _. unfold ParseUint in P.
      apply (parseUintLoop_digits _ 0). rewrite P. reflexivity.
Qed.

(* ===================================================================== *)
(** ** No operation at all *)
(* ===================================================================== *)

(** C9. An expression of three tokens before the question mark, [what]
    and [is] in any case and then an integer [n], is accepted and
    evaluates to the [float64] of [n]: the loops run no iteration. *)
Theorem bare_operand_is_valid :
  (forall body w i n,
      Fields body = [w; i; n] ->
      ToLower w = KeywordWhat -> ToLower i = KeywordIs -> parses n ->
      validateExpression (body ++ "?") = Ok (true, "")
      /\ evaluateExpression (body ++ "?") = Ok (float64_of_int (Atoi n).1, ""))
  /\ (forall fields n acc,
        fields = [KeywordWhat; KeywordIs; n] ->
        validateLoop (length fields) fields 3 = Ok (true, "")
        /\ evaluateLoop (length fields) fields 3 acc = Ok (acc, ""))
  /\ evaluateExpression "what is 7?" = Ok (float64_of_int 7, "")
  /\ evaluateExpression " WHAT  Is   -42 ?" = Ok (float64_of_int (-42), "").
Proof.
  split; [|split; [|split; vm_compute; reflexivity]].
  - intros body w i n F Hw Hi Hn.
    assert (T : Fields (ToLower body) = sentence n []).
    { rewrite Fields_ToLower, F. cbn [map]. rewrite Hw, Hi, (parses_ToLower n Hn). reflexivity. }
    split.
    + rewrite validateExpression_question, T. f_equal.
      apply validateTokens_sentence; [exact Hn | constructor].
    + rewrite <- parseNum_value.
      apply (evaluateExpression_sentence _ n []);
        [apply unterminated_question | rewrite tokens_question; exact T | exact Hn | constructor].
  - intros fields n acc ->. split; reflexivity.
Qed.

Lemma bare_operand_is_valid_witness :
  validateExpression ("What IS +12" ++ "?") = Ok (true, "")
  /\ evaluateExpression ("What IS +12" ++ "?") = Ok (float64_of_int (Atoi "+12").1, "").
Proof.
  apply (proj1 bare_operand_is_valid "What IS +12" "What" "IS" "+12");
    vm_compute; reflexivity.
Defined.

(* ===================================================================== *)
(** ** The error store *)
(* ===================================================================== *)

Lemma wrapInt_small (z : Z) : minInt <= z <= maxInt -> wrapInt z = z.
Proof.
  unfold wrapInt, minInt, maxInt. intros H.
  rewrite Z.mod_small; lia.
Qed.

Lemma wrapInt_succ (z : Z) : wrapInt (wrapInt z + 1) = wrapInt (z + 1).
Proof.
  unfold wrapInt. f_equal.
  replace ((z + 2 ^ 63) mod 2 ^ 64 - 2 ^ 63 + 1 + 2 ^ 63)
    with ((z + 2 ^ 63) mod 2 ^ 64 + 1) by lia.
  replace (z + 1 + 2 ^ 63) with ((z + 2 ^ 63) + 1) by lia.
  rewrite Zplus_mod_idemp_l. reflexivity.
Qed.

Lemma evaluateExpression_accepted (s : string) :
  validateExpression s = Ok (true, "") ->
  exists value, evaluateExpression s = Ok (value, "").
Proof.
  intros H.
  destruct (validateExpression_accepted s "" H) as (Hu & _ & first & pairs & T & Hf & Hok).
  eexists. apply (evaluateExpression_sentence s first pairs Hu T Hf Hok).
Qed.

Lemma evaluateHandler_recorded (p : ProblemExpression) (store : ErrorStore) :
  exists resp,
    evaluateHandler p store = Ok (resp, recorded EvaluateEndpoint (Expression p) store).
Proof.
  unfold evaluateHandler, recorded, isZeroValue.
  destruct (String.eqb (Expression p) ""); [eexists; reflexivity|].
  destruct (validateExpression_returns (Expression p)) as [H|(r & H & Hr)].
  - destruct (evaluateExpression_accepted _ H) as [v Hv].
    rewrite Hv, H. cbn [bind]. eexists. reflexivity.
  - rewrite (evaluateExpression_rejected _ r H), H. cbn [bind].
    apply String.eqb_neq in Hr. rewrite Hr. cbn [negb]. eexists. reflexivity.
Qed.

Lemma validateHandler_recorded (p : ProblemExpression) (store : ErrorStore) :
  exists resp,
    validateHandler p store = Ok (resp, recorded ValidateEndpoint (Expression p) store).
Proof.
  unfold validateHandler, recorded, isZeroValue.
  destruct (String.eqb (Expression p) ""); [eexists; reflexivity|].
  destruct (validateExpression_returns (Expression p)) as [H|(r & H & Hr)].
  - rewrite H. cbn [bind]. eexists. reflexivity.
  - rewrite H. cbn [bind].
    apply String.eqb_neq in Hr. rewrite Hr. cbn [negb]. eexists. reflexivity.
Qed.

(** A request changes at most the record of its own key. *)
Lemma recorded_other (endpoint e : string) (store : ErrorStore) (k : MessageType) :
  k <> {| Content := e; Endpoint := endpoint |} ->
  recorded endpoint e store !! k = store !! k.
Proof.
  intros Hk. unfold recorded.
  destruct (String.eqb e ""); [reflexivity|].
  destruct (validateExpression e) as [[[|] reason]| |]; try reflexivity.
  cbv zeta. rewrite lookup_insert_ne; [reflexivity | congruence].
Qed.

(** A failing, non-empty expression adds one failure to its record. *)
Lemma recorded_failure (endpoint e reason : string) (store : ErrorStore) :
  e <> "" -> validateExpression e = Ok (false, reason) ->
  recorded endpoint e store !! {| Content := e; Endpoint := endpoint |}
  = Some (bump reason (store !! {| Content := e; Endpoint := endpoint |})).
Proof.
  intros He H. unfold recorded. apply String.eqb_neq in He. rewrite He, H.
  cbv zeta. apply lookup_insert_eq.
Qed.

(** An accepted expression, and the empty one, change nothing. *)
Lemma recorded_success (endpoint e : string) (store : ErrorStore) :
  e = "" \/ validateExpression e = Ok (true, "") ->
  recorded endpoint e store = store.
Proof.
  unfold recorded. intros [->|H]; [reflexivity|]. rewrite H.
  destruct (String.eqb e ""); reflexivity.
Qed.

(** The errors query reports a stored record once. *)
Lemma errorsHandler_key (store : ErrorStore) (key : MessageType) (info : MessageInfo) :
  store !! key = Some info ->
  filter (about key) (errorsHandler store) = [errorInfo (key, info)].
Proof.
  intros H. apply Permutation_singleton_r. unfold errorsHandler.
  rewrite <- (map_to_list_delete store key info H). cbn [fmap list_fmap].
  rewrite filter_cons_True by (split; reflexivity).
  apply Permutation_skip.
  destruct (filter (about key) (errorInfo <$> map_to_list (delete key store)))
    as [|x xs] eqn:F; [reflexivity|]. exfalso.
  assert (Hx : x ∈ filter (about key) (errorInfo <$> map_to_list (delete key store)))
    by (rewrite F; left).
  apply list_elem_of_filter in Hx as [[H1 H2] Hx].
  apply list_elem_of_fmap in Hx as ([k v] & -> & Hkv).
  apply elem_of_map_to_list in Hkv. cbn in H1, H2.
  assert (k = key) by (destruct k, key; cbn in *; congruence). subst k.
  rewrite lookup_delete_eq in Hkv. discriminate.
Qed.

(* ===================================================================== *)
(** ** Frame of the handlers *)
(* ===================================================================== *)

(** C10. A handler whose call returns the empty reason leaves the store
    as it was; any call of a handler leaves every record but the one of
    (its expression, its endpoint) as it was. *)
Theorem handlers_frame (p : ProblemExpression) (store : ErrorStore) :
  (forall value, evaluateExpression (Expression p) = Ok (value, "") ->
     exists resp, evaluateHandler p store = Ok (resp, store))
  /\ (forall valid, validateExpression (Expression p) = Ok (valid, "") ->
        exists resp, validateHandler p store = Ok (resp, store))
  /\ (exists resp store',
        evaluateHandler p store = Ok (resp, store')
        /\ forall k, k <> {| Content := Expression p; Endpoint := EvaluateEndpoint |} ->
                     store' !! k = store !! k)
  /\ (exists resp store',
        validateHandler p store = Ok (resp, store')
        /\ forall k, k <> {| Content := Expression p; Endpoint := ValidateEndpoint |} ->
                     store' !! k = store !! k).
Proof.
  assert (Hv : forall valid, validateExpression (Expression p) = Ok (valid, "") ->
               validateExpression (Expression p) = Ok (true, "")).
  { intros valid H. destruct (validateExpression_returns (Expression p)) as [H'|(r & H' & Hr)];
      [exact H'|]. rewrite H' in H. injection H as _ ->. contradiction. }
  split; [|split; [|split]].
  - intros value H.
    destruct (evaluateHandler_recorded p store) as [resp E]. exists resp.
    rewrite E, recorded_success; [reflexivity|]. right.
    destruct (validateExpression_returns (Expression p)) as [H'|(r & H' & Hr)]; [exact H'|].
    rewrite (evaluateExpression_rejected _ r H') in H. injection H as _ ->. contradiction.
  - intros valid H.
    destruct (validateHandler_recorded p store) as [resp E]. exists resp.
    rewrite E, recorded_success; [reflexivity|]. right. exact (Hv valid H).
  - destruct (evaluateHandler_recorded p store) as [resp E].
    exists resp, (recorded EvaluateEndpoint (Expression p) store).
    split; [exact E|]. intros k Hk. apply recorded_other. exact Hk.
  - destruct (validateHandler_recorded p store) as [resp E].
    exists resp, (recorded ValidateEndpoint (Expression p) store).
    split; [exact E|]. intros k Hk. apply recorded_other. exact Hk.
Qed.

Lemma handlers_frame_witness :
  exists resp,
    evaluateHandler {| Expression := "What is 2 plus 3?" |}
      (<[{| Content := "x"; Endpoint := EvaluateEndpoint |}
         := {| Frequency := 4; ErrorType := NonMathQuestionError |}]> ∅)
    = Ok (resp, <[{| Content := "x"; Endpoint := EvaluateEndpoint |}
                 := {| Frequency := 4; ErrorType := NonMathQuestionError |}]> ∅).
Proof.
  apply (proj1 (handlers_frame {| Expression := "What is 2 plus 3?" |} _)
           (float64_of_int 5)).
  vm_compute. reflexivity.
Defined.

(* ===================================================================== *)
(** ** Failure counters *)
(* ===================================================================== *)

Section Counter.

Variables endpoint e reason : string.
Hypothesis nonempty : e <> "".
Hypothesis failing : validateExpression e = Ok (false, reason).

Lemma serve_key (req : request) (store : ErrorStore) :
  exists resp store',
    serve req store = Ok (resp, store')
    /\ store' !! {| Content := e; Endpoint := endpoint |}
       = if targets endpoint e req then Some (bump reason (store !! {| Content := e; Endpoint := endpoint |}))
         else store !! {| Content := e; Endpoint := endpoint |}.
Proof.
  destruct req as [p|p]; cbn [serve targets].
  - destruct (evaluateHandler_recorded p store) as [resp E].
    exists resp, (recorded EvaluateEndpoint (Expression p) store). split; [exact E|].
    destruct (String.eqb_spec endpoint EvaluateEndpoint) as [Hep|Hep];
      [destruct (String.eqb_spec (Expression p) e) as [He|He]|]; cbn [andb].
    + rewrite Hep, He. apply recorded_failure; assumption.
    + apply recorded_other. congruence.
    + apply recorded_other. congruence.
  - destruct (validateHandler_recorded p store) as [resp E].
    exists resp, (recorded ValidateEndpoint (Expression p) store). split; [exact E|].
    destruct (String.eqb_spec endpoint ValidateEndpoint) as [Hep|Hep];
      [destruct (String.eqb_spec (Expression p) e) as [He|He]|]; cbn [andb].
    + rewrite Hep, He. apply recorded_failure; assumption.
    + apply recorded_other. congruence.
    + apply recorded_other. congruence.
Qed.

Lemma serveAll_key (reqs : list request) :
  forall store : ErrorStore,
    exists store',
      serveAll reqs store = Ok store'
      /\ store' !! {| Content := e; Endpoint := endpoint |}
         = Nat.iter (submissions endpoint e reqs)
             (fun stored => Some (bump reason stored)) (store !! {| Content := e; Endpoint := endpoint |}).
Proof.
  induction reqs as [|req reqs IH]; intros store.
  - exists store. split; reflexivity.
  - destruct (serve_key req store) as (resp & store1 & E1 & L1).
    destruct (IH store1) as (store' & E & L).
    exists store'. cbn [serveAll]. rewrite E1. cbn [bind]. split; [exact E|].
    rewrite L, L1. unfold submissions. cbn [List.filter].
    destruct (targets endpoint e req); [|reflexivity].
    cbn [length]. rewrite Nat.iter_succ_r. reflexivity.
Qed.

(** From no record, [n] failures leave the count [n], as an [int]. *)
Lemma iter_bump (n : nat) :
  Nat.iter (S n) (fun stored => Some (bump reason stored)) None
  = Some {| Frequency := wrapInt (Z.of_nat (S n)); ErrorType := reason |}.
Proof.
  induction n as [|n IH]; [reflexivity|].
  rewrite Nat.iter_succ, IH. cbn [bump Frequency ErrorType].
  rewrite wrapInt_succ. do 3 f_equal. lia.
Qed.

Lemma serveAll_counter (reqs : list request) :
  exists store,
    serveAll reqs ∅ = Ok store
    /\ store !! {| Content := e; Endpoint := endpoint |}
       = match submissions endpoint e reqs with
         | O => None
         | S n => Some {| Frequency := wrapInt (Z.of_nat (S n)); ErrorType := reason |}
         end.
Proof.
  destruct (serveAll_key reqs ∅) as (store & E & L).
  exists store. split; [exact E|]. rewrite L, lookup_empty.
  destruct (submissions endpoint e reqs) as [|n]; [reflexivity | apply iter_bump].
Qed.

End Counter.

(** C7, as stated, fails: the empty expression fails validation, but a
    request that carries it is answered as a malformed request before
    the core is called, and nothing is recorded. *)
Lemma empty_expression_counterexample :
  validateExpression "" = Ok (false, InvalidExpressionError)
  /\ submissions EvaluateEndpoint "" [PostEvaluate {| Expression := "" |}] = 1%nat
  /\ serveAll [PostEvaluate {| Expression := "" |}] ∅ = Ok ∅
  /\ ~ (forall e reason reqs n,
          validateExpression e = Ok (false, reason) ->
          submissions EvaluateEndpoint e reqs = S n ->
          exists store,
            serveAll reqs ∅ = Ok store
            /\ store !! {| Content := e; Endpoint := EvaluateEndpoint |}
               = Some {| Frequency := Z.of_nat (S n); ErrorType := reason |}).
Proof.
  split; [reflexivity|]. split; [reflexivity|]. split; [reflexivity|].
  intros H.
  destruct (H "" InvalidExpressionError [PostEvaluate {| Expression := "" |}] 0%nat
              eq_refl eq_refl) as (store & E & L).
  change (serveAll [PostEvaluate {| Expression := "" |}] ∅) with (Ok (∅ : ErrorStore)) in E.
  injection E as <-. rewrite lookup_empty in L. discriminate L.
Qed.

(** C7, amended.  Serve any sequence of requests from the empty store,
    and let [e] be a non-empty expression that fails validation with
    [reason].  For each endpoint, if [e] was submitted to it [N >= 1]
    times, the store holds under (e, endpoint) the record of type
    [reason] whose frequency is [N] as an [int], which is [N] itself up
    to [maxInt], and the errors query reports that record once; if it
    was never submitted there, the store holds no record under that
    key.  The keys of the two endpoints differ, so
    the two counts do not mix.  A request whose expression is empty is
    answered as a malformed request and leaves the store as it was. *)
Theorem failure_counters :
  (forall e reason reqs,
      e <> "" ->
      validateExpression e = Ok (false, reason) ->
      exists store,
        serveAll reqs ∅ = Ok store
        /\ (forall endpoint n,
              submissions endpoint e reqs = S n ->
              store !! {| Content := e; Endpoint := endpoint |}
              = Some {| Frequency := wrapInt (Z.of_nat (S n)); ErrorType := reason |}
              /\ (Z.of_nat (S n) <= maxInt ->
                  store !! {| Content := e; Endpoint := endpoint |}
                  = Some {| Frequency := Z.of_nat (S n); ErrorType := reason |})
              /\ filter (about {| Content := e; Endpoint := endpoint |}) (errorsHandler store)
                 = [{| ErrorInfo.Expression := e; ErrorInfo.Endpoint := endpoint;
                       ErrorInfo.Frequency := wrapInt (Z.of_nat (S n));
                       ErrorInfo.Type_ := reason |}])
        /\ (forall endpoint,
              submissions endpoint e reqs = 0%nat ->
              store !! {| Content := e; Endpoint := endpoint |} = None)
        /\ {| Content := e; Endpoint := EvaluateEndpoint |}
           <> {| Content := e; Endpoint := ValidateEndpoint |})
  /\ (forall store,
        evaluateHandler {| Expression := "" |} store
        = Ok ({| Code := StatusBadRequest; Body := EvaluationResponse InvalidJSONError |},
              store)
        /\ validateHandler {| Expression := "" |} store
           = Ok ({| Code := StatusBadRequest;
                    Body := ValidationResponse false InvalidJSONError |}, store)).
Proof.
  split; [|intros store; split; reflexivity].
  intros e reason reqs He Hf.
  destruct (serveAll_counter EvaluateEndpoint e reason He Hf reqs) as (store & E & _).
  assert (L : forall endpoint,
             store !! {| Content := e; Endpoint := endpoint |}
             = match submissions endpoint e reqs with
               | O => None
               | S n => Some {| Frequency := wrapInt (Z.of_nat (S n)); ErrorType := reason |}
               end).
  { intros endpoint.
    destruct (serveAll_counter endpoint e reason He Hf reqs) as (store' & E' & L).
    rewrite E in E'. injection E' as <-. exact L. }
  exists store. split; [exact E|]. split; [|split].
  - intros endpoint n Hn. specialize (L endpoint). rewrite Hn in L.
    split; [exact L|]. split.
    + intros Hmax. rewrite L, wrapInt_small; [reflexivity|]. unfold minInt. lia.
    + apply (errorsHandler_key store _ _ L).
  - intros endpoint Hn. specialize (L endpoint). rewrite Hn in L. exact L.
  - discriminate.
Qed.

Lemma failure_counters_witness :
  exists store,
    serveAll [PostEvaluate {| Expression := "What is 100 minus?" |};
              PostValidate {| Expression := "What is 100 minus?" |};
              PostEvaluate {| Expression := "What is 2 plus 3?" |};
              PostEvaluate {| Expression := "What is 100 minus?" |};
              PostEvaluate {| Expression := "What is 100 minus?" |}] ∅ = Ok store
    /\ store !! {| Content := "What is 100 minus?"; Endpoint := EvaluateEndpoint |}
       = Some {| Frequency := 3; ErrorType := InvalidExpressionError |}
    /\ store !! {| Content := "What is 100 minus?"; Endpoint := ValidateEndpoint |}
       = Some {| Frequency := 1; ErrorType := InvalidExpressionError |}.
Proof.
  destruct (proj1 failure_counters "What is 100 minus?" InvalidExpressionError
              [PostEvaluate {| Expression := "What is 100 minus?" |};
               PostValidate {| Expression := "What is 100 minus?" |};
               PostEvaluate {| Expression := "What is 2 plus 3?" |};
               PostEvaluate {| Expression := "What is 100 minus?" |};
               PostEvaluate {| Expression := "What is 100 minus?" |}])
    as (store & E & L & _).
  - discriminate.
  - vm_compute. reflexivity.
  - exists store. split; [exact E|]. split.
    + apply (proj1 (proj2 (L EvaluateEndpoint 2%nat eq_refl))). vm_compute. discriminate.
    + apply (proj1 (proj2 (L ValidateEndpoint 0%nat eq_refl))). vm_compute. discriminate.
Defined.

(* ===================================================================== *)
(** ** The reasons of a rejection *)
(* ===================================================================== *)

(** X1. Whatever the input, [validateExpression] answers [(true, "")]
    or [false] with one of its three reasons; the reason of a malformed
    request is never among them. *)
Theorem validate_reason_taxonomy (s : string) :
  exists valid reason,
    validateExpression s = Ok (valid, reason)
    /\ (if valid then reason = ""
        else reason = InvalidExpressionError \/ reason = NonMathQuestionError
             \/ reason = UnsupportedOperationError)
    /\ reason <> InvalidJSONError.
Proof.
  rewrite validateExpression_tokens.
  destruct (unterminated s).
  - exists false, InvalidExpressionError. repeat split; [left; reflexivity | discriminate].
  - pose proof (validateTokens_reason (tokens s)) as R.
    destruct (validateTokens (tokens s)) as [[|] reason].
    + exists true, reason. split; [reflexivity|]. split; [exact R|]. subst. discriminate.
    + exists false, reason. split; [reflexivity|]. split; [exact R|].
      destruct R as [->|[->| ->]]; discriminate.
Qed.

(* ===================================================================== *)
(** ** Letter case and white space *)
(* ===================================================================== *)

Lemma lowerByte_idem (c : ascii) : lowerByte (lowerByte c) = lowerByte c.
Proof. destruct c as [[] [] [] [] [] [] [] []]; vm_compute; reflexivity. Qed.

Lemma ToLower_idem (s : string) : ToLower (ToLower s) = ToLower s.
Proof.
  induction s as [|c s IH]; cbn [ToLower]; [reflexivity|].
  rewrite lowerByte_idem, IH. reflexivity.
Qed.

Lemma len_ToLower (s : string) : len (ToLower s) = len s.
Proof. unfold len. induction s as [|c s IH]; simpl; [reflexivity | rewrite IH; reflexivity]. Qed.

Lemma substring_ToLower (s : string) :
  forall n m, substring n m (ToLower s) = ToLower (substring n m s).
Proof.
  induction s as [|c s IH]; intros [|n] [|m]; cbn [ToLower substring]; try reflexivity.
  - rewrite IH. reflexivity.
  - apply IH.
  - apply IH.
Qed.

Lemma question_ToLower (t : string) : String.eqb (ToLower t) "?" = String.eqb t "?".
Proof.
  destruct t as [|c [|d t]]; cbn [ToLower]; [reflexivity| |].
  - destruct c as [[] [] [] [] [] [] [] []]; vm_compute; reflexivity.
  - cbn [String.eqb]. destruct (Ascii.eqb (lowerByte c) "?"), (Ascii.eqb c "?"); reflexivity.
Qed.

Lemma unterminated_ToLower (s : string) : unterminated (ToLower s) = unterminated s.
Proof.
  unfold unterminated, HasSuffix. rewrite len_ToLower, substring_ToLower, question_ToLower.
  reflexivity.
Qed.

Lemma tokens_ToLower (s : string) : tokens (ToLower s) = tokens s.
Proof.
  unfold tokens. rewrite len_ToLower, substring_ToLower, ToLower_idem. reflexivity.
Qed.

(** Both functions look at an expression through its guard and its
    tokens only. *)
Lemma evaluateExpression_determined (s s' : string) :
  unterminated s = unterminated s' -> tokens s = tokens s' ->
  validateExpression s = validateExpression s'
  /\ evaluateExpression s = evaluateExpression s'.
Proof.
  intros Hu Ht.
  assert (Hv : validateExpression s = validateExpression s')
    by (rewrite !validateExpression_tokens, Hu, Ht; reflexivity).
  split; [exact Hv|].
  destruct (validateExpression_returns s) as [H|(r & H & _)].
  - destruct (validateExpression_accepted s "" H) as (U & _ & first & pairs & T & Hf & Hok).
    rewrite (evaluateExpression_sentence s first pairs U T Hf Hok).
    symmetry. apply (evaluateExpression_sentence s' first pairs); congruence.
  - rewrite (evaluateExpression_rejected s r H).
    symmetry. apply evaluateExpression_rejected. congruence.
Qed.

(** X2. Letter case does not matter: two expressions with the same
    lower-case form get the same answer from both functions. *)
Theorem case_insensitive (s s' : string) :
  ToLower s = ToLower s' ->
  validateExpression s = validateExpression s'
  /\ evaluateExpression s = evaluateExpression s'.
Proof.
  intros H. apply evaluateExpression_determined.
  - rewrite <- (unterminated_ToLower s), <- (unterminated_ToLower s'), H. reflexivity.
  - rewrite <- (tokens_ToLower s), <- (tokens_ToLower s'), H. reflexivity.
Qed.

Lemma case_insensitive_witness :
  validateExpression "WHAT Is 2 PluS 3?" = validateExpression "what is 2 plus 3?"
  /\ evaluateExpression "WHAT Is 2 PluS 3?" = evaluateExpression "what is 2 plus 3?".
Proof. apply case_insensitive. vm_compute. reflexivity. Defined.

(** X3. White space does not matter beyond separating the tokens: two
    expressions whose texts before the question mark split into the
    same fields get the same answer from both functions. *)
Theorem whitespace_insensitive (body body' : string) :
  Fields body = Fields body' ->
  validateExpression (body ++ "?") = validateExpression (body' ++ "?")
  /\ evaluateExpression (body ++ "?") = evaluateExpression (body' ++ "?").
Proof.
  intros H. apply evaluateExpression_determined.
  - rewrite !unterminated_question. reflexivity.
  - rewrite !tokens_question, !Fields_ToLower, H. reflexivity.
Qed.

Lemma whitespace_insensitive_witness :
  validateExpression ("  what   is 2  plus 3 " ++ "?") = validateExpression ("what is 2 plus 3" ++ "?")
  /\ evaluateExpression ("  what   is 2  plus 3 " ++ "?") = evaluateExpression ("what is 2 plus 3" ++ "?").
Proof. apply whitespace_insensitive. vm_compute. reflexivity. Defined.

(* ===================================================================== *)
(** ** The accepted language and what a reason tells *)
(* ===================================================================== *)








(* ===================================================================== *)
(** ** Appending an operation *)
(* ===================================================================== *)

Lemma app_cons (x : ascii) (a b : string) : String x a ++ b = String x (a ++ b).
Proof. reflexivity. Qed.

Lemma app_empty (b : string) : "" ++ b = b.
Proof. reflexivity. Qed.

Lemma string_app_assoc (a b c : string) : (a ++ b) ++ c = a ++ b ++ c.
Proof.
  induction a as [|x a IH]; [reflexivity|]. rewrite !app_cons, IH. reflexivity.
Qed.

Lemma ToLower_app (a b : string) : ToLower (a ++ b) = ToLower a ++ ToLower b.
Proof.
  induction a as [|x a IH]; [reflexivity|].
  rewrite app_cons. cbn [ToLower]. rewrite app_cons, IH. reflexivity.
Qed.

(** A space ends the field being read; the fields after it are those
    of the rest. *)
Lemma fieldsFrom_space (a : string) :
  forall (cur : option string) (sp : ascii) (b : string),
    isSpace sp = true ->
    fieldsFrom cur (a ++ String sp b) = (fieldsFrom cur a ++ fieldsFrom None b)%list.
Proof.
  induction a as [|c a IH]; intros cur sp b Hsp.
  - rewrite app_empty. cbn [fieldsFrom]. rewrite Hsp. destruct cur; reflexivity.
  - rewrite app_cons. cbn [fieldsFrom].
    destruct (isSpace c); destruct cur; rewrite IH by exact Hsp; reflexivity.
Qed.

Lemma Fields_space (a b : string) :
  Fields (a ++ String " " b) = (Fields a ++ Fields b)%list.
Proof. apply fieldsFrom_space. reflexivity. Qed.

Lemma fieldsFrom_word (w : string) :
  forall cur : string,
    allBytes (fun c => negb (isSpace c)) w = true ->
    fieldsFrom (Some cur) w = [cur ++ w].
Proof.
  induction w as [|c w IH]; intros cur H; cbn [fieldsFrom allBytes] in *.
  - f_equal. induction cur as [|x cur IHc]; [reflexivity|].
    rewrite app_cons, <- IHc. reflexivity.
  - apply andb_true_iff in H as [Hc Hw]. apply negb_true_iff in Hc. rewrite Hc.
    rewrite (IH _ Hw), string_app_assoc. reflexivity.
Qed.

Lemma Fields_word (w : string) :
  w <> "" -> allBytes (fun c => negb (isSpace c)) w = true -> Fields w = [w].
Proof.
  destruct w as [|c w]; [congruence|]. intros _ H. unfold Fields. cbn [fieldsFrom allBytes] in *.
  apply andb_true_iff in H as [Hc Hw]. apply negb_true_iff in Hc. rewrite Hc.
  apply (fieldsFrom_word w (String c EmptyString) Hw).
Qed.

Lemma isDigit_not_space (c : ascii) : isDigit c = true -> negb (isSpace c) = true.
Proof. destruct c as [[] [] [] [] [] [] [] []]; vm_compute; congruence. Qed.

Lemma parseUintLoop_spaceless (s : string) :
  forall n, (parseUintLoop s n).2 = None ->
    allBytes (fun c => negb (isSpace c)) s = true.
Proof.
  induction s as [|c s IH]; intros n; cbn [parseUintLoop allBytes]; [reflexivity|].
  destruct (isDigit c) eqn:D; [|discriminate].
  destruct (maxUint64 / 10 + 1 <=? n); [discriminate|]. cbv zeta.
  destruct (_ || _); [discriminate|].
  intros H. rewrite (isDigit_not_space c D), (IH _ H). reflexivity.
Qed.

(** A token that parses is one field. *)
Lemma parses_word (x : string) : parses x -> Fields x = [x].
Proof.
  intros Hx. apply Fields_word; [intros ->; discriminate Hx|]. revert Hx.
  unfold parses, Atoi, ParseInt. destruct x as [|c s]; [discriminate|].
  cbv zeta. set (neg := Ascii.eqb c "-"%char).
  destruct (Ascii.eqb c "+"%char || neg) eqn:Sg.
  - assert (Hc : negb (isSpace c) = true).
    { subst neg. apply orb_true_iff in Sg as [E|E]; apply Ascii.eqb_eq in E; subst c; reflexivity. }
    destruct (ParseUint s) as [un [[|]|]] eqn:P; [discriminate| |].
    + pose proof (parseUintLoop_value s 0 (Z.le_refl 0)) as [Hv _].
      unfold ParseUint in P. destruct s; [discriminate P|]. rewrite P in Hv.
      cbn [fst snd] in Hv. rewrite (Hv eq_refl). destruct neg; vm_compute; discriminate.
    + intros _. cbn [allBytes]. rewrite Hc. cbn [andb].
      unfold ParseUint in P. destruct s; [reflexivity|].
      apply (parseUintLoop_spaceless _ 0). rewrite P. reflexivity.
  - destruct (ParseUint (String c s)) as [un [[|]|]] eqn:P; [discriminate| |].
    + pose proof (parseUintLoop_value (String c s) 0 (Z.le_refl 0)) as [Hv _].
      unfold ParseUint in P. rewrite P in Hv.
      cbn [fst snd] in Hv. rewrite (Hv eq_refl). destruct neg; vm_compute; discriminate.
    + intros _. unfold ParseUint in P.
      apply (parseUintLoop_spaceless _ 0). rewrite P. reflexivity.
Qed.

(** The fields of a body followed by a space, words and an operand. *)
Lemma Fields_appended (body kws x : string) :
  parses x ->
  Fields (ToLower (body ++ String " " (kws ++ String " " x)))
  = (Fields (ToLower body) ++ Fields (ToLower kws) ++ [x])%list.
Proof.
  intros Hx. rewrite ToLower_app. cbn [ToLower]. rewrite ToLower_app. cbn [ToLower].
  change (lowerByte " ") with " "%char.
  rewrite !Fields_space, (parses_ToLower x Hx), (parses_word x Hx). reflexivity.
Qed.

Lemma sentence_snoc (first : string) (pairs : list pair) (p : pair) :
  sentence first (pairs ++ [p]) = (sentence first pairs ++ pairTokens p)%list.
Proof.
  unfold sentence. rewrite map_app, concat_app. cbn [map concat].
  rewrite app_nil_r. reflexivity.
Qed.

Lemma extended_text (body kws x : string) :
  body ++ " " ++ kws ++ " " ++ x ++ "?"
  = (body ++ String " " (kws ++ String " " x)) ++ "?".
Proof.
  rewrite string_app_assoc. f_equal.
  change (" " ++ kws ++ " " ++ x ++ "?") with (String " " (kws ++ String " " (x ++ "?"))).
  rewrite app_cons, string_app_assoc, app_cons. reflexivity.
Qed.

Lemma operation_fields (o : operation) (x : string) :
  (Fields (ToLower (operationText o)) ++ [x])%list = pairTokens {| op := o; operand := x |}.
Proof. destruct o; reflexivity. Qed.

(** X6. An operation written after an accepted expression applies to
    its value: if the expression evaluates to [value] and [x] is an
    integer, then the expression followed by [plus x], [minus x],
    [multiplied by x] or [divided by x] evaluates to [value] plus,
    minus, times or over [x]; only [divided by] a zero is rejected
    instead, as an invalid expression. *)
Theorem append_operation (body x : string) (o : operation) (value : float64) :
  evaluateExpression (body ++ "?") = Ok (value, "") ->
  parses x ->
  ((o = DividedBy -> ~ parsesZero x) ->
   evaluateExpression (body ++ " " ++ operationText o ++ " " ++ x ++ "?")
   = Ok (applyPair value {| op := o; operand := x |}, ""))
  /\ (o = DividedBy -> parsesZero x ->
      evaluateExpression (body ++ " " ++ operationText o ++ " " ++ x ++ "?")
      = Ok (f64_zero, InvalidExpressionError)).
Proof.
  intros Hv Hx.
  destruct (validateExpression_returns (body ++ "?")) as [H|(r & H & Hr)];
    [|rewrite (evaluateExpression_rejected _ r H) in Hv; injection Hv as _ ->; contradiction].
  destruct (validateExpression_accepted _ "" H) as (U & _ & first & pairs & T & Hf & Hok).
  rewrite (evaluateExpression_sentence _ first pairs U T Hf Hok) in Hv.
  injection Hv as <-. rewrite tokens_question in T.
  rewrite extended_text.
  assert (T' : Fields (ToLower (body ++ String " " (operationText o ++ String " " x)))
               = (sentence first pairs ++ pairTokens {| op := o; operand := x |})%list).
  { rewrite (Fields_appended body (operationText o) x Hx), T, operation_fields. reflexivity. }
  split.
  - intros Hz.
    rewrite (evaluateExpression_sentence _ first (pairs ++ [{| op := o; operand := x |}])).
    + rewrite fold_left_app. reflexivity.
    + apply unterminated_question.
    + rewrite tokens_question, T', sentence_snoc. reflexivity.
    + exact Hf.
    + apply Forall_app. split; [exact Hok|]. constructor; [|constructor].
      split; [exact Hx | exact Hz].
  - intros -> Hz. apply evaluateExpression_rejected.
    rewrite validateExpression_question, T'. f_equal.
    rewrite (validateTokens_skip _ _ _ Hf Hok). apply walk_divided_by_zero. exact Hz.
Qed.

Lemma append_operation_witness :
  evaluateExpression ("What is 7 minus 1" ++ " " ++ operationText DividedBy ++ " " ++ "4" ++ "?")
  = Ok (f64_div (float64_of_int 6) (float64_of_int 4), "")
  /\ evaluateExpression ("What is 7 minus 1" ++ " " ++ operationText DividedBy ++ " " ++ "0" ++ "?")
     = Ok (f64_zero, InvalidExpressionError).
Proof.
  split.
  - apply (proj1 (append_operation "What is 7 minus 1" "4" DividedBy (float64_of_int 6)
                    ltac:(vm_compute; reflexivity) ltac:(vm_compute; reflexivity))).
    intros _. vm_compute. discriminate.
  - apply (proj2 (append_operation "What is 7 minus 1" "0" DividedBy (float64_of_int 6)
                    ltac:(vm_compute; reflexivity) ltac:(vm_compute; reflexivity)));
      [reflexivity | vm_compute; reflexivity].
Defined.

(* ===================================================================== *)
(** ** Operands as decimal numerals *)
(* ===================================================================== *)









(* ===================================================================== *)
(** ** [parseNum] on text that is no operand *)
(* ===================================================================== *)




(* ===================================================================== *)
(** ** The two endpoints on the same expression *)
(* ===================================================================== *)

(** X9. The two endpoints agree on every non-empty expression, and
    both answer with status 200 whether it is accepted or not: either
    the evaluate endpoint answers with a number and the validate
    endpoint with [valid: true] and no reason, and the store stays as it
    was; or the evaluate endpoint answers with a reason and the validate
    endpoint with [valid: false] and the same reason, one of the three
    of the validator. *)
Theorem endpoints_agree (p : ProblemExpression) (store : ErrorStore) :
  Expression p <> "" ->
  (exists value,
      evaluateHandler p store
      = Ok ({| Code := StatusOK; Body := EvaluationValue value |}, store)
      /\ validateHandler p store
         = Ok ({| Code := StatusOK; Body := ValidationResponse true "" |}, store))
  \/ (exists reason store1 store2,
        (reason = InvalidExpressionError \/ reason = NonMathQuestionError
         \/ reason = UnsupportedOperationError)
        /\ evaluateHandler p store
           = Ok ({| Code := StatusOK; Body := EvaluationResponse reason |}, store1)
        /\ validateHandler p store
           = Ok ({| Code := StatusOK; Body := ValidationResponse false reason |}, store2)).
Proof.
  intros Hne. apply String.eqb_neq in Hne.
  unfold evaluateHandler, validateHandler, isZeroValue. rewrite Hne.
  destruct (validateExpression_returns (Expression p)) as [H|(r & H & Hr)].
  - left. destruct (evaluateExpression_accepted _ H) as [value Hv].
    exists value. rewrite Hv, H. split; reflexivity.
  - right. rewrite (evaluateExpression_rejected _ r H), H. cbn [bind].
    apply String.eqb_neq in Hr. rewrite Hr. cbn [negb].
    do 3 eexists. split; [|split; reflexivity].
    pose proof (validateTokens_reason (tokens (Expression p))) as R.
    rewrite validateExpression_tokens in H. injection H as H.
    destruct (unterminated (Expression p)); [injection H as <-; left; reflexivity|].
    rewrite H in R. exact R.
Qed.

Lemma endpoints_agree_witness :
  (exists value,
      evaluateHandler {| Expression := "What is 2 plus 3?" |} ∅
      = Ok ({| Code := StatusOK; Body := EvaluationValue value |}, ∅)
      /\ validateHandler {| Expression := "What is 2 plus 3?" |} ∅
         = Ok ({| Code := StatusOK; Body := ValidationResponse true "" |}, ∅))
  \/ (exists reason store1 store2,
        (reason = InvalidExpressionError \/ reason = NonMathQuestionError
         \/ reason = UnsupportedOperationError)
        /\ evaluateHandler {| Expression := "What is 2 plus 3?" |} ∅
           = Ok ({| Code := StatusOK; Body := EvaluationResponse reason |}, store1)
        /\ validateHandler {| Expression := "What is 2 plus 3?" |} ∅
           = Ok ({| Code := StatusOK; Body := ValidationResponse false reason |}, store2)).
Proof. apply (endpoints_agree {| Expression := "What is 2 plus 3?" |} ∅). discriminate. Defined.

(* ===================================================================== *)
(** ** The store after any requests *)
(* ===================================================================== *)

Lemma submissions_cons (endpoint e : string) (req : request) (reqs : list request) :
  submissions endpoint e (req :: reqs)
  = (submissions endpoint e [req] + submissions endpoint e reqs)%nat.
Proof.
  unfold submissions. cbn [List.filter]. destruct (targets endpoint e req); reflexivity.
Qed.

Lemma recordAfter_cons (req : request) (reqs : list request)
    (stored : option MessageInfo) (key : MessageType) :
  recordAfter (req :: reqs) stored key = recordAfter reqs (recordAfter [req] stored key) key.
Proof.
  unfold recordAfter. destruct (String.eqb (Content key) ""); [reflexivity|].
  destruct (validateExpression (Content key)) as [[[|] reason]| |]; try reflexivity.
  rewrite submissions_cons, Nat.add_comm, Nat.iter_add. reflexivity.
Qed.

(** What a request with expression [e] on [endpoint] leaves under any
    key. *)
Lemma recorded_lookup (endpoint e : string) (store : ErrorStore) (key : MessageType) :
  recorded endpoint e store !! key
  = if String.eqb (Content key) "" then store !! key
    else match validateExpression (Content key) with
         | Ok (false, reason) =>
             if String.eqb (Endpoint key) endpoint && String.eqb e (Content key)
             then Some (bump reason (store !! key)) else store !! key
         | _ => store !! key
         end.
Proof.
  destruct key as [c ep]. cbn [Content Endpoint].
  destruct (decide ({| Content := c; Endpoint := ep |}
                    = {| Content := e; Endpoint := endpoint |})) as [E|E].
  - injection E as -> ->. rewrite !String.eqb_refl. cbn [andb].
    destruct (String.eqb_spec e "") as [->|He]; [rewrite recorded_success; auto|].
    destruct (validateExpression_returns e) as [H|(r & H & _)]; rewrite H.
    + rewrite recorded_success; auto.
    + apply recorded_failure; assumption.
  - rewrite (recorded_other _ _ _ _ E).
    destruct (String.eqb c ""); [reflexivity|].
    destruct (validateExpression c) as [[[|] reason]| |]; try reflexivity.
    destruct (String.eqb_spec ep endpoint) as [->|]; [|reflexivity].
    destruct (String.eqb_spec e c) as [->|]; [congruence | reflexivity].
Qed.

(** A request adds at most one record and removes none. *)
Lemma recorded_size (endpoint e : string) (store : ErrorStore) :
  (size store <= size (recorded endpoint e store) <= S (size store))%nat.
Proof.
  unfold recorded. destruct (String.eqb e ""); [lia|].
  destruct (validateExpression e) as [[[|] reason]| |]; try lia.
  cbv zeta. rewrite map_size_insert.
  destruct (store !! _); unfold id; lia.
Qed.

(** One request, seen from any key. *)
Lemma serve_step (req : request) (store : ErrorStore) :
  exists resp store',
    serve req store = Ok (resp, store')
    /\ (forall key, store' !! key = recordAfter [req] (store !! key) key)
    /\ (size store <= size store' <= S (size store))%nat.
Proof.
  destruct req as [p|p]; cbn [serve].
  - destruct (evaluateHandler_recorded p store) as [resp E].
    exists resp, (recorded EvaluateEndpoint (Expression p) store). split; [exact E|].
    split; [|apply recorded_size].
    intros key. rewrite recorded_lookup. unfold recordAfter, submissions.
    cbn [List.filter targets].
    destruct (String.eqb (Content key) ""); [reflexivity|].
    destruct (validateExpression (Content key)) as [[[|] reason]| |]; try reflexivity.
    destruct (_ && _); reflexivity.
  - destruct (validateHandler_recorded p store) as [resp E].
    exists resp, (recorded ValidateEndpoint (Expression p) store). split; [exact E|].
    split; [|apply recorded_size].
    intros key. rewrite recorded_lookup. unfold recordAfter, submissions.
    cbn [List.filter targets].
    destruct (String.eqb (Content key) ""); [reflexivity|].
    destruct (validateExpression (Content key)) as [[[|] reason]| |]; try reflexivity.
    destruct (_ && _); reflexivity.
Qed.

(** Any requests, seen from any key. *)
Lemma serveAll_lookup (reqs : list request) :
  forall store : ErrorStore,
    exists store',
      serveAll reqs store = Ok store'
      /\ (forall key, store' !! key = recordAfter reqs (store !! key) key)
      /\ (size store <= size store' <= size store + length reqs)%nat.
Proof.
  induction reqs as [|req reqs IH]; intros store.
  - exists store. split; [reflexivity|]. split; [|cbn [length]; lia].
    intros key. unfold recordAfter.
    destruct (String.eqb (Content key) ""); [reflexivity|].
    destruct (validateExpression (Content key)) as [[[|] reason]| |]; reflexivity.
  - destruct (serve_step req store) as (resp & store1 & E1 & L1 & S1).
    destruct (IH store1) as (store' & E & L & S').
    exists store'. cbn [serveAll]. rewrite E1. cbn [bind]. split; [exact E|].
    split; [|cbn [length]; lia].
    intros key. rewrite L, L1. symmetry. apply recordAfter_cons.
Qed.

Lemma submissions_endpoint (endpoint e : string) (reqs : list request) :
  submissions endpoint e reqs <> 0%nat ->
  endpoint = EvaluateEndpoint \/ endpoint = ValidateEndpoint.
Proof.
  unfold submissions. induction reqs as [|req reqs IH]; [intros H; contradiction H; reflexivity|].
  cbn [List.filter]. destruct (targets endpoint e req) eqn:T; [intros _|exact IH].
  destruct req as [p|p]; cbn [targets] in T; apply andb_true_iff in T as [T _];
    apply String.eqb_eq in T; auto.
Qed.

Lemma submissions_Permutation (endpoint e : string) (reqs reqs' : list request) :
  Permutation reqs reqs' -> submissions endpoint e reqs = submissions endpoint e reqs'.
Proof.
  unfold submissions. induction 1 as [|req l l' _ IH|a b l|l l' l'' _ IH1 _ IH2];
    cbn [List.filter].
  - reflexivity.
  - destruct (targets endpoint e req); cbn [length]; rewrite IH; reflexivity.
  - destruct (targets endpoint e a), (targets endpoint e b); reflexivity.
  - rewrite IH1. exact IH2.
Qed.

Lemma iter_bump_stored (reason : string) (info : MessageInfo) (n : nat) :
  exists info',
    Nat.iter n (fun record => Some (bump reason record)) (Some info) = Some info'
    /\ ErrorType info' = ErrorType info.
Proof.
  induction n as [|n (info' & E & T)]; [exists info; split; reflexivity|].
  rewrite Nat.iter_succ, E. cbn [bump]. eexists. split; [reflexivity | exact T].
Qed.

(* ===================================================================== *)
(** ** What the store holds *)
(* ===================================================================== *)

(** X10. Every record of the store, after any requests served from the
    empty store, comes from failures: its expression is not empty and
    fails validation with the reason stored as its type, one of the
    three of the validator; its endpoint is one of the two; it was
    submitted there at least once, and its frequency is the number of
    these submissions, as an [int]. *)
Theorem store_records_are_failures (reqs : list request) :
  exists store,
    serveAll reqs ∅ = Ok store
    /\ forall key info,
         store !! key = Some info ->
         Content key <> ""
         /\ (Endpoint key = EvaluateEndpoint \/ Endpoint key = ValidateEndpoint)
         /\ validateExpression (Content key) = Ok (false, ErrorType info)
         /\ (ErrorType info = InvalidExpressionError
             \/ ErrorType info = NonMathQuestionError
             \/ ErrorType info = UnsupportedOperationError)
         /\ exists n,
              submissions (Endpoint key) (Content key) reqs = S n
              /\ Frequency info = wrapInt (Z.of_nat (S n)).
Proof.
  destruct (serveAll_lookup reqs ∅) as (store & E & L & _).
  exists store. split; [exact E|]. intros key info H.
  rewrite L, lookup_empty in H. unfold recordAfter in H.
  destruct (String.eqb_spec (Content key) "") as [|Hne]; [discriminate H|].
  destruct (validateExpression_returns (Content key)) as [V|(r & V & Hr)];
    rewrite V in H; [discriminate H|].
  destruct (submissions (Endpoint key) (Content key) reqs) as [|n] eqn:N; [discriminate H|].
  rewrite iter_bump in H. injection H as <-. cbn [ErrorType Frequency].
  split; [exact Hne|]. split; [apply (submissions_endpoint _ (Content key) reqs); lia|].
  split; [exact V|]. split; [|exists n; split; reflexivity].
  pose proof (validateTokens_reason (tokens (Content key))) as R.
  rewrite validateExpression_tokens in V. injection V as V.
  destruct (unterminated (Content key)); [injection V as <-; left; reflexivity|].
  rewrite V in R. exact R.
Qed.

Lemma store_records_are_failures_witness :
  exists store,
    serveAll [PostValidate {| Expression := "What day is it today?" |};
              PostEvaluate {| Expression := "What is 2 plus 3?" |}] ∅ = Ok store
    /\ forall key info,
         store !! key = Some info -> Content key <> "".
Proof.
  destruct (store_records_are_failures
              [PostValidate {| Expression := "What day is it today?" |};
               PostEvaluate {| Expression := "What is 2 plus 3?" |}]) as (store & E & H).
  exists store. split; [exact E|]. intros key info Hk. exact (proj1 (H key info Hk)).
Defined.

(** X11. The store does not depend on the order of the requests: two
    sequences with the same requests, in any order, served from the
    same store leave the same store. *)
Theorem requests_commute (reqs reqs' : list request) (store : ErrorStore) :
  Permutation reqs reqs' -> serveAll reqs store = serveAll reqs' store.
Proof.
  intros P.
  destruct (serveAll_lookup reqs store) as (s1 & E1 & L1 & _).
  destruct (serveAll_lookup reqs' store) as (s2 & E2 & L2 & _).
  rewrite E1, E2. f_equal. apply map_eq. intros key. rewrite L1, L2.
  unfold recordAfter.
  rewrite (submissions_Permutation (Endpoint key) (Content key) reqs reqs' P). reflexivity.
Qed.

Lemma requests_commute_witness :
  serveAll [PostValidate {| Expression := "What is?" |};
            PostEvaluate {| Expression := "What is?" |};
            PostEvaluate {| Expression := "Why?" |}] ∅
  = serveAll [PostEvaluate {| Expression := "Why?" |};
              PostValidate {| Expression := "What is?" |};
              PostEvaluate {| Expression := "What is?" |}] ∅.
Proof.
  apply requests_commute.
  symmetry.
  apply (Permutation_cons_append
           [PostValidate {| Expression := "What is?" |};
            PostEvaluate {| Expression := "What is?" |}]
           (PostEvaluate {| Expression := "Why?" |})).
Defined.

(** X12. Records are never evicted and never change type: after any
    requests, from any store, every key that had a record still has one,
    of the same type, even when later failures of that expression are
    recorded; and the store has grown by at most one record for each
    request. *)
Theorem records_persist (reqs : list request) (store : ErrorStore) :
  exists store',
    serveAll reqs store = Ok store'
    /\ (forall key info,
          store !! key = Some info ->
          exists info', store' !! key = Some info' /\ ErrorType info' = ErrorType info)
    /\ (size store <= size store' <= size store + length reqs)%nat.
Proof.
  destruct (serveAll_lookup reqs store) as (store' & E & L & S').
  exists store'. split; [exact E|]. split; [|exact S'].
  intros key info H. rewrite L, H. unfold recordAfter.
  destruct (String.eqb (Content key) ""); [exists info; split; reflexivity|].
  destruct (validateExpression (Content key)) as [[[|] reason]| |];
    try (exists info; split; reflexivity).
  apply iter_bump_stored.
Qed.

Lemma records_persist_witness :
  exists store',
    serveAll [PostEvaluate {| Expression := "What is 1 plus?" |}]
      (<[{| Content := "What is 1 plus?"; Endpoint := EvaluateEndpoint |}
         := {| Frequency := 7; ErrorType := NonMathQuestionError |}]> ∅) = Ok store'
    /\ exists info',
         store' !! {| Content := "What is 1 plus?"; Endpoint := EvaluateEndpoint |}
         = Some info'
         /\ ErrorType info' = NonMathQuestionError.
Proof.
  destruct (records_persist [PostEvaluate {| Expression := "What is 1 plus?" |}]
              (<[{| Content := "What is 1 plus?"; Endpoint := EvaluateEndpoint |}
                 := {| Frequency := 7; ErrorType := NonMathQuestionError |}]> ∅))
    as (store' & E & H & _).
  exists store'. split; [exact E|].
  apply (H _ {| Frequency := 7; ErrorType := NonMathQuestionError |}).
  apply lookup_insert_eq.
Defined.

(* ===================================================================== *)
(** ** The errors query *)
(* ===================================================================== *)

#[global] Instance errorInfo_inj : Inj (=) (=) errorInfo.
Proof.
  intros [[c1 e1] [f1 t1]] [[c2 e2] [f2 t2]] H. cbn in H. congruence.
Qed.

(** X13. The errors query lists the store: an entry is in the answer
    exactly when the store holds, under its expression and endpoint,
    the record with its frequency and type; no entry is listed twice,
    and there are as many entries as records. *)
Theorem errors_query_lists_store (store : ErrorStore) :
  (forall errors : ErrorInfo.t,
      errors ∈ errorsHandler store
      <-> store !! {| Content := ErrorInfo.Expression errors;
                      Endpoint := ErrorInfo.Endpoint errors |}
          = Some {| Frequency := ErrorInfo.Frequency errors;
                    ErrorType := ErrorInfo.Type_ errors |})
  /\ NoDup (errorsHandler store)
  /\ length (errorsHandler store) = size store.
Proof.
  unfold errorsHandler. split; [|split].
  - intros [c e f t]. cbn [ErrorInfo.Expression ErrorInfo.Endpoint ErrorInfo.Frequency
                            ErrorInfo.Type_].
    rewrite <- elem_of_map_to_list, list_elem_of_fmap. split.
    + intros ([[c' e'] [f' t']] & H & Hin). cbn in H. injection H as -> -> -> ->. exact Hin.
    + intros Hin. eexists. split; [|exact Hin]. reflexivity.
  - apply NoDup_fmap_2; [apply _ | apply NoDup_map_to_list].
  - rewrite length_fmap. apply length_map_to_list.
Qed.

Lemma errors_query_lists_store_witness :
  {| ErrorInfo.Expression := "Why?"; ErrorInfo.Endpoint := ValidateEndpoint;
     ErrorInfo.Frequency := 2; ErrorInfo.Type_ := NonMathQuestionError |}
  ∈ errorsHandler (<[{| Content := "Why?"; Endpoint := ValidateEndpoint |}
                     := {| Frequency := 2; ErrorType := NonMathQuestionError |}]> ∅).
Proof.
  apply (proj2 (proj1 (errors_query_lists_store _) _)). apply lookup_insert_eq.
Defined.
